(** * Fixed-window rate limiter (task-3/server): embedding and properties

    Embedded sources:
    - [server/rateLimiter.js]: class [RateLimiter] ([checkLimit],
      [getStatus], [reset], [cleanup]) and [createRateLimiterMiddleware];
    - [server/index.js]: the identity resolution of each route, the status
      route's [resetInSeconds] and the reset route.

    Conventions.
    - JavaScript numbers are modelled as [Z]: counts, limits and millisecond
      timestamps are integers far below 2^53, where the double arithmetic
      of the source ([+], [-], [++], [<], [>=]) is exact.
    - [Date.now()] is an input: every function that reads the clock takes the
      value read as an argument, one argument per call of [Date.now()].
    - User ids are strings, as the three request fields are when a client
      sends them as text; a field that is missing is [None] ([undefined] in
      the source).  Other JSON values in the body field are not modelled.
    - The limiter object is a record; its methods are state transformers
      in the monad [M]. *)

From stdpp Require Import gmap strings list fin_maps.

Open Scope string_scope.
Open Scope Z_scope.

(** ** The limiter object *)

(** [Map<userId, {count: number, resetTime: number}>] *)
Record UserData := mkUserData { count : Z; resetTime : Z }.

Record RateLimiter := mkRateLimiter {
  maxRequests : Z;
  windowMs : Z;
  userRequests : gmap string UserData
}.

(** [constructor(maxRequests = 5, windowMs = 60000)] *)
Definition new_RateLimiter (maxRequests windowMs : option Z) : RateLimiter :=
  {| maxRequests := default 5 maxRequests;
     windowMs := default 60000 windowMs;
     userRequests := ∅ |}.

(** ** A state monad over the limiter *)

Definition M (A : Type) : Type := RateLimiter → A * RateLimiter.

Definition ret {A} (a : A) : M A := λ rl, (a, rl).
Definition bind {A B} (m : M A) (f : A → M B) : M B :=
  λ rl, let '(a, rl') := m rl in f a rl'.

Notation "'let*' x ':=' m 'in' k" := (bind m (λ x, k))
  (at level 10, x binder, k at level 200, only parsing).
Notation "'run' m 'then' k" := (bind m (λ _, k))
  (at level 10, k at level 200, only parsing).

Definition this_maxRequests : M Z := λ rl, (maxRequests rl, rl).
Definition this_windowMs : M Z := λ rl, (windowMs rl, rl).

(** [this.userRequests.get(userId)] *)
Definition map_get (userId : string) : M (option UserData) :=
  λ rl, (userRequests rl !! userId, rl).

(** The limiter with its map replaced; [maxRequests] and [windowMs] are
    assigned only by the constructor. *)
Definition with_userRequests (rl : RateLimiter) (m : gmap string UserData)
  : RateLimiter :=
  {| maxRequests := maxRequests rl; windowMs := windowMs rl;
     userRequests := m |}.

(** [this.userRequests.set(userId, data)] *)
Definition map_set (userId : string) (data : UserData) : M unit :=
  λ rl, (tt, with_userRequests rl (<[userId := data]> (userRequests rl))).

(** [this.userRequests.delete(userId)] *)
Definition map_delete (userId : string) : M unit :=
  λ rl, (tt, with_userRequests rl (delete userId (userRequests rl))).

(** [this.userRequests.entries()] *)
Definition map_entries : M (list (string * UserData)) :=
  λ rl, (map_to_list (userRequests rl), rl).

(** [for (const x of xs) body(x)] *)
Fixpoint for_of {A} (xs : list A) (body : A → M unit) : M unit :=
  match xs with
  | [] => ret tt
  | x :: xs' => run body x then for_of xs' body
  end.

(** ** RateLimiter methods *)

Record CheckResult := mkCheckResult {
  allowed : bool;
  remaining : Z;
  cr_resetTime : Z
}.

Record Status := mkStatus {
  st_remaining : Z;
  st_resetTime : Z
}.

(** [!userData || now >= userData.resetTime] *)
Definition absent_or_expired (now : Z) (userData : option UserData) : bool :=
  match userData with
  | None => true
  | Some d => now >=? resetTime d
  end.

(** [checkLimit(userId)]; [now] is the value of [Date.now()] on its first
    line.  The object fetched from the map is mutated in place by
    [userData.count++] and stored back under the same key; no other key holds
    that object, so the update is the replacement of that one entry. *)
Definition checkLimit (userId : string) (now : Z) : M CheckResult :=
  let* userData := map_get userId in
  let create_or_reset : M CheckResult :=
    let* w := this_windowMs in
    let resetTime := now + w in
    run map_set userId {| count := 1; resetTime := resetTime |} then
    let* max := this_maxRequests in
    ret {| allowed := true; remaining := max - 1;
           cr_resetTime := resetTime |} in
  match userData with
  | None => create_or_reset
  | Some d =>
      if now >=? resetTime d then create_or_reset
      else
        let* max := this_maxRequests in
        if count d <? max then
          let d' := {| count := count d + 1; resetTime := resetTime d |} in
          run map_set userId d' then
          ret {| allowed := true; remaining := max - count d';
                 cr_resetTime := resetTime d' |}
        else
          ret {| allowed := false; remaining := 0;
                 cr_resetTime := resetTime d |}
  end.

(** [getStatus(userId)]: the method contains no [set] and no [delete], and
    returns a fresh object, not the stored one. *)
Definition getStatus (userId : string) (now : Z) : M Status :=
  let* userData := map_get userId in
  let as_it_would_begin : M Status :=
    let* max := this_maxRequests in
    let* w := this_windowMs in
    ret {| st_remaining := max; st_resetTime := now + w |} in
  match userData with
  | None => as_it_would_begin
  | Some d =>
      if now >=? resetTime d then as_it_would_begin
      else
        let* max := this_maxRequests in
        ret {| st_remaining := max - count d; st_resetTime := resetTime d |}
  end.

(** [reset(userId)] *)
Definition reset (userId : string) : M unit :=
  map_delete userId.

(** [cleanup()]: the loop walks the entries of the map and deletes the
    expired ones from it.  Deleting the entry being visited does not disturb
    a JavaScript [Map] iterator, so the walk visits every entry present at
    the call. *)
Definition cleanup (now : Z) : M unit :=
  let* entries := map_entries in
  for_of entries (λ '(userId, data),
    if now >=? resetTime data then map_delete userId else ret tt).

(** ** Requests and identity resolution *)

(** The parsed JSON body, as far as the server reads it: its [userId]
    field, when that field is a JSON string.  [express.json()] also delivers
    numbers, booleans, arrays and objects there, and the [||] chains below
    take any truthy one as the user id; such bodies are outside this type,
    and the statements about requests are statements about requests whose
    identity values are strings or missing. *)
Record Body := mkBody { body_userId : option string }.

(** The parts of an Express request the server reads:
    [req.headers['x-user-id']], [req.query.userId] and [req.body].  The
    query parameter is a string when it is given once; a repeated or
    bracketed parameter, which Express parses to an array or an object, is
    outside this type as well. *)
Record Request := mkRequest {
  headers_x_user_id : option string;
  query_userId : option string;
  body : option Body
}.

(** [req.body?.userId] *)
Definition req_body_userId (req : Request) : option string :=
  match body req with
  | None => None
  | Some b => body_userId b
  end.

(** JavaScript truthiness of a value that is a string or [undefined]. *)
Definition truthy (v : option string) : bool :=
  match v with
  | None => false
  | Some s => negb (String.eqb s EmptyString)
  end.

(** [a || b] *)
Definition js_or (a b : option string) : option string :=
  if truthy a then a else b.

(** [a || 'literal'], whose value is always a string. *)
Definition js_or_lit (a : option string) (lit : string) : string :=
  match a with
  | Some s => if truthy a then s else lit
  | None => lit
  end.

(** rateLimiter.js, [createRateLimiterMiddleware]:
    [req.headers['x-user-id'] || req.query.userId || req.body?.userId || 'anonymous'] *)
Definition userId_middleware (req : Request) : string :=
  js_or_lit (js_or (js_or (headers_x_user_id req) (query_userId req))
                   (req_body_userId req))
            "anonymous".

(** index.js, GET /api/data and GET /api/rate-limit-status:
    [req.headers['x-user-id'] || req.query.userId || 'anonymous'] *)
Definition userId_get (req : Request) : string :=
  js_or_lit (js_or (headers_x_user_id req) (query_userId req)) "anonymous".

(** index.js, POST /api/data:
    [req.headers['x-user-id'] || req.body?.userId || 'anonymous'] *)
Definition userId_post (req : Request) : string :=
  js_or_lit (js_or (headers_x_user_id req) (req_body_userId req)) "anonymous".

(** index.js, POST /api/reset-rate-limit:
    [req.headers['x-user-id'] || req.body?.userId || req.query.userId] *)
Definition userId_reset (req : Request) : option string :=
  js_or (js_or (headers_x_user_id req) (req_body_userId req))
        (query_userId req).

(** ** Middleware and routes *)

(** [Math.ceil(x / 1000)] on an integer number of milliseconds.  (Where the
    source yields [-0], this is [0].) *)
Definition ceil_seconds (x : Z) : Z := - ((- x) / 1000).

(** The three [X-RateLimit-*] headers; the reset instant is kept as the
    millisecond timestamp that the source renders with [toISOString]. *)
Record RateLimitHeaders := mkHeaders {
  X_RateLimit_Limit : Z;
  X_RateLimit_Remaining : Z;
  X_RateLimit_Reset : Z
}.

Inductive Response :=
  | Ok_data (userId : string) (info_remaining info_resetTime : Z)
  | Ok_status (userId : string)
      (limit window remaining_ resetTime_ resetInSeconds : Z)
  | Ok_reset (userId : string)
  | Bad_request
  | Too_many_requests (resetTime_ retryAfter : Z).

(** The middleware either calls [next()] or answers itself. *)
Inductive Outcome :=
  | Next
  | Answered (r : Response).

(** The function returned by [createRateLimiterMiddleware(rateLimiter)].
    [now] is read by [checkLimit]; [now'] is the later [Date.now()] of the
    429 body. *)
Definition rateLimiterMiddleware (req : Request) (now now' : Z)
  : M (RateLimitHeaders * Outcome) :=
  let userId := userId_middleware req in
  let* result := checkLimit userId now in
  let* max := this_maxRequests in
  let headers := {| X_RateLimit_Limit := max;
                    X_RateLimit_Remaining := remaining result;
                    X_RateLimit_Reset := cr_resetTime result |} in
  if negb (allowed result) then
    ret (headers,
         Answered (Too_many_requests (cr_resetTime result)
                     (ceil_seconds (cr_resetTime result - now'))))
  else ret (headers, Next).

(** A route behind the middleware: the handler runs only after [next()].
    [now_h] is the clock read by the handler's [getStatus]. *)
Definition data_route (userId_of : Request → string)
    (req : Request) (now now' now_h : Z) : M (RateLimitHeaders * Response) :=
  let* mw := rateLimiterMiddleware req now now' in
  match mw.2 with
  | Answered r => ret (mw.1, r)
  | Next =>
      let userId := userId_of req in
      let* status := getStatus userId now_h in
      ret (mw.1, Ok_data userId (st_remaining status) (st_resetTime status))
  end.

(** [app.get('/api/data', rateLimiterMiddleware, ...)] *)
Definition get_api_data := data_route userId_get.

(** [app.post('/api/data', rateLimiterMiddleware, ...)] *)
Definition post_api_data := data_route userId_post.

(** [app.get('/api/rate-limit-status', ...)]: [now] is read by [getStatus],
    [now'] by the [resetInSeconds] expression. *)
Definition get_api_rate_limit_status (req : Request) (now now' : Z)
  : M Response :=
  let userId := userId_get req in
  let* status := getStatus userId now in
  let* max := this_maxRequests in
  let* w := this_windowMs in
  ret (Ok_status userId max w (st_remaining status) (st_resetTime status)
         (ceil_seconds (st_resetTime status - now'))).

(** [app.post('/api/reset-rate-limit', ...)] *)
Definition post_api_reset_rate_limit (req : Request) : M Response :=
  let userId := userId_reset req in
  match userId with
  | Some u =>
      if negb (truthy userId) then ret Bad_request
      else run reset u then ret (Ok_reset u)
  | None => ret Bad_request
  end.

(** ** Sequences of calls *)

(** Consecutive [checkLimit(userId)] calls, one per clock value. *)
Fixpoint checkLimit_seq (userId : string) (nows : list Z)
  : M (list CheckResult) :=
  match nows with
  | [] => ret []
  | now :: nows' =>
      let* r := checkLimit userId now in
      let* rs := checkLimit_seq userId nows' in
      ret (r :: rs)
  end.

(** A call of one of the per-key methods. *)
Inductive Call :=
  | Call_checkLimit (userId : string) (now : Z)
  | Call_getStatus (userId : string) (now : Z)
  | Call_reset (userId : string).

Definition call_userId (c : Call) : string :=
  match c with
  | Call_checkLimit u _ | Call_getStatus u _ | Call_reset u => u
  end.

Inductive Returned :=
  | Ret_check (r : CheckResult)
  | Ret_status (s : Status)
  | Ret_undefined.

Definition do_call (c : Call) : M Returned :=
  match c with
  | Call_checkLimit u now => let* r := checkLimit u now in ret (Ret_check r)
  | Call_getStatus u now => let* s := getStatus u now in ret (Ret_status s)
  | Call_reset u => run reset u then ret Ret_undefined
  end.

Fixpoint do_calls (cs : list Call) : M (list Returned) :=
  match cs with
  | [] => ret []
  | c :: cs' =>
      let* r := do_call c in
      let* rs := do_calls cs' in
      ret (r :: rs)
  end.

(** ** Specification-side definitions *)

(** What the [i]-th call (from 0) of a window opened at [t0] is to return:
    admitted with [maxRequests - 1 - i] left while [i < maxRequests],
    rejected with nothing left afterwards. *)
Definition expected_in_window (rl : RateLimiter) (t0 : Z) (i : nat)
  : CheckResult :=
  if Z.of_nat i <? maxRequests rl then
    {| allowed := true; remaining := maxRequests rl - 1 - Z.of_nat i;
       cr_resetTime := t0 + windowMs rl |}
  else
    {| allowed := false; remaining := 0; cr_resetTime := t0 + windowMs rl |}.

(** A value that is given: present and not the empty string. *)
Definition given (v : option string) : option string :=
  match v with
  | Some s => if String.eqb s EmptyString then None else Some s
  | None => None
  end.

(** The precedence as the specification words it: header, else query
    parameter, else body field, else ["anonymous"]; a value counts as given
    when it is a non-empty string. *)
Definition spec_identity (req : Request) : string :=
  match given (headers_x_user_id req) with
  | Some header => header
  | None =>
      match given (query_userId req) with
      | Some query => query
      | None =>
          match given (req_body_userId req) with
          | Some field => field
          | None => "anonymous"
          end
      end
  end.

(** The places of the server that resolve a user identity. *)
Inductive Endpoint :=
  | Middleware
  | Get_api_data
  | Post_api_data
  | Get_api_rate_limit_status
  | Post_api_reset_rate_limit.

(** The identity each of them resolves; [None] when the value is falsy,
    which only the reset route can produce. *)
Definition resolve (e : Endpoint) (req : Request) : option string :=
  match e with
  | Middleware => Some (userId_middleware req)
  | Get_api_data | Get_api_rate_limit_status => Some (userId_get req)
  | Post_api_data => Some (userId_post req)
  | Post_api_reset_rate_limit =>
      if truthy (userId_reset req) then userId_reset req else None
  end.

(** A caller-supplied value that is missing or the empty string. *)
Definition absent_or_empty (v : option string) : Prop :=
  v = None ∨ v = Some EmptyString.

(** No identity is supplied: header, query parameter and body field are each
    missing or empty. *)
Definition no_identity (req : Request) : Prop :=
  absent_or_empty (headers_x_user_id req) ∧
  absent_or_empty (query_userId req) ∧
  absent_or_empty (req_body_userId req).

(** A request carrying nothing at all. *)
Definition bare_request : Request :=
  {| headers_x_user_id := None; query_userId := None; body := None |}.

(** The [retryAfter] of a 429 answer, the [resetInSeconds] of a status
    answer. *)
Definition seconds_reported (r : Response) : option Z :=
  match r with
  | Too_many_requests _ retryAfter => Some retryAfter
  | Ok_status _ _ _ _ _ resetInSeconds => Some resetInSeconds
  | _ => None
  end.

(** Every stored record counts between one and [maxRequests] requests. *)
Definition counts_in_range (rl : RateLimiter) : Prop :=
  ∀ k d, userRequests rl !! k = Some d → 1 ≤ count d ≤ maxRequests rl.

(** The limiters the server can reach from a constructed one: any
    interleaving of method calls, [cleanup] ticks included. *)
Inductive reachable (max w : Z) : RateLimiter → Prop :=
  | reach_new : reachable max w (new_RateLimiter (Some max) (Some w))
  | reach_call rl c :
      reachable max w rl → reachable max w (do_call c rl).2
  | reach_cleanup rl now :
      reachable max w rl → reachable max w (cleanup now rl).2.

(** The scenario limiter of index.js: [new RateLimiter(5, 60000)]. *)
Definition rateLimiter : RateLimiter := new_RateLimiter (Some 5) (Some 60000).

(** Inside an active window holding [c] admitted requests, the [i]-th further
    call is admitted while [c + i < maxRequests]. *)
Definition expected_from (rl : RateLimiter) (c e : Z) (i : nat) : CheckResult :=
  if c + Z.of_nat i <? maxRequests rl then
    {| allowed := true; remaining := maxRequests rl - (c + Z.of_nat i + 1);
       cr_resetTime := e |}
  else {| allowed := false; remaining := 0; cr_resetTime := e |}.

(** A saturated window of the scenario limiter, ending at 60000. *)
Definition saturated : RateLimiter :=
  with_userRequests rateLimiter
    {[ "user-1" := {| count := 5; resetTime := 60000 |} ]}.

(** The keys of [entries] whose record has expired at [now] include [k]. *)
Definition expired_in (now : Z) (k : string)
    (entries : list (string * UserData)) : bool :=
  existsb (λ '(k', d), bool_decide (k' = k) && (now >=? resetTime d)) entries.

(** The body of the loop in [cleanup]. *)
Definition cleanup_body (now : Z) : string * UserData → M unit :=
  λ '(userId, data),
    if now >=? resetTime data then map_delete userId else ret tt.

(** Two users of the scenario limiter: ["user-a"] has made one request,
    ["user-b"] none yet. *)
Definition two_users : RateLimiter :=
  (checkLimit "user-a" 0 rateLimiter).2.

(** One expired and one active record at time 60000. *)
Definition mixed : RateLimiter :=
  with_userRequests rateLimiter
    (<[ "old" := {| count := 2; resetTime := 60000 |} ]>
       {[ "live" := {| count := 3; resetTime := 60001 |} ]}).

(** Two limiters a call on [k] cannot tell apart: same configuration, same
    record (or absence of one) for [k]. *)
Definition agree_on (k : string) (rl1 rl2 : RateLimiter) : Prop :=
  maxRequests rl1 = maxRequests rl2 ∧
  windowMs rl1 = windowMs rl2 ∧
  userRequests rl1 !! k = userRequests rl2 !! k.

(** A request identified by header only. *)
Definition request_of (userId : string) : Request :=
  {| headers_x_user_id := Some userId; query_userId := None; body := None |}.

(** ** Definitions for the further properties *)

(** How many results of [rs] admit a request into the window ending at [e]. *)
Definition count_admitted (e : Z) (rs : list CheckResult) : nat :=
  length (List.filter (λ r, allowed r && (cr_resetTime r =? e)) rs).

(** How many requests of [k] the limiter can still admit into the window
    ending at [e]: none when the stored window ends later, what is left of
    the stored window when [e] is its end, a full quota otherwise. *)
Definition window_budget (rl : RateLimiter) (k : string) (e : Z) : Z :=
  match userRequests rl !! k with
  | None => maxRequests rl
  | Some d =>
      if e <? resetTime d then 0
      else if e =? resetTime d then maxRequests rl - count d
      else maxRequests rl
  end.

(** No stored window ends more than [windowMs] after the clock value [t]. *)
Definition ends_within (t : Z) (rl : RateLimiter) : Prop :=
  ∀ k d, userRequests rl !! k = Some d → resetTime d ≤ t + windowMs rl.

(** The record of [k] is present and its window is open at [now]. *)
Definition active_at (now : Z) (rl : RateLimiter) (k : string) : Prop :=
  ∃ d, userRequests rl !! k = Some d ∧ now < resetTime d.

(** The records kept by [cleanup]: those whose window is open at [now]. *)
Definition still_open (now : Z) (kd : string * UserData) : Prop :=
  now < resetTime kd.2.

#[local] Instance still_open_dec now kd : Decision (still_open now kd).
Proof. unfold still_open. apply _. Defined.

(** ["user-a"] identified by query parameter, with a body that names nobody. *)
Definition query_request : Request :=
  {| headers_x_user_id := None; query_userId := Some "user-a";
     body := Some {| body_userId := None |} |}.

(** A [POST] without header whose query parameter and body field name
    different users. *)
Definition split_request : Request :=
  {| headers_x_user_id := None; query_userId := Some "user-a";
     body := Some {| body_userId := Some "user-b" |} |}.

(** A request that names its user in the body field only. *)
Definition body_only_request : Request :=
  {| headers_x_user_id := None; query_userId := None;
     body := Some {| body_userId := Some "user-b" |} |}.

(** The scenario limiter after one request of ["user-a"] at 0 and one of
    ["user-b"] at 1. *)
Definition both_users : RateLimiter :=
  (checkLimit "user-b" 1 two_users).2.

(** * Properties *)

(** ** The three branches of [checkLimit] *)

Ltac unfold_M :=
  unfold bind, ret, map_get, map_set, map_delete, this_maxRequests,
    this_windowMs in *; simpl in *.

Lemma geb_false_lt (a b : Z) : (a >=? b) = false ↔ a < b.
Proof. rewrite Z.geb_leb, Z.leb_gt. done. Qed.

Lemma geb_true_le (a b : Z) : (a >=? b) = true ↔ b ≤ a.
Proof. rewrite Z.geb_leb, Z.leb_le. done. Qed.

Lemma with_userRequests_id rl : with_userRequests rl (userRequests rl) = rl.
Proof. by destruct rl. Qed.

Lemma checkLimit_create_or_reset userId now rl :
  absent_or_expired now (userRequests rl !! userId) = true →
  checkLimit userId now rl =
    ({| allowed := true; remaining := maxRequests rl - 1;
        cr_resetTime := now + windowMs rl |},
     with_userRequests rl
       (<[userId := {| count := 1; resetTime := now + windowMs rl |}]>
          (userRequests rl))).
Proof.
  intros H. unfold checkLimit. unfold_M.
  destruct (userRequests rl !! userId) as [d|]; simpl in H; [|done].
  by rewrite H.
Qed.

Lemma checkLimit_admit userId now rl d :
  userRequests rl !! userId = Some d →
  now < resetTime d →
  count d < maxRequests rl →
  checkLimit userId now rl =
    ({| allowed := true; remaining := maxRequests rl - (count d + 1);
        cr_resetTime := resetTime d |},
     with_userRequests rl
       (<[userId := {| count := count d + 1; resetTime := resetTime d |}]>
          (userRequests rl))).
Proof.
  intros Hd Hnow Hc. unfold checkLimit. unfold_M. rewrite Hd.
  apply geb_false_lt in Hnow. rewrite Hnow.
  apply Z.ltb_lt in Hc. by rewrite Hc.
Qed.

Lemma checkLimit_reject userId now rl d :
  userRequests rl !! userId = Some d →
  now < resetTime d →
  maxRequests rl ≤ count d →
  checkLimit userId now rl =
    ({| allowed := false; remaining := 0; cr_resetTime := resetTime d |}, rl).
Proof.
  intros Hd Hnow Hc. unfold checkLimit. unfold_M. rewrite Hd.
  apply geb_false_lt in Hnow. rewrite Hnow.
  apply Z.ltb_ge in Hc. by rewrite Hc.
Qed.

(** [checkLimit] never touches the configuration. *)
Lemma checkLimit_config userId now rl :
  maxRequests (checkLimit userId now rl).2 = maxRequests rl ∧
  windowMs (checkLimit userId now rl).2 = windowMs rl.
Proof.
  unfold checkLimit. unfold_M.
  destruct (userRequests rl !! userId) as [d|]; [|done].
  destruct (now >=? resetTime d); [done|].
  by destruct (count d <? maxRequests rl).
Qed.

(** ** C1: one window admits exactly [maxRequests] calls *)

Lemma expected_from_succ rl c e i :
  c < maxRequests rl →
  expected_from rl (c + 1) e i = expected_from rl c e (S i).
Proof.
  intros _. unfold expected_from.
  replace (c + Z.of_nat (S i)) with (c + 1 + Z.of_nat i) by lia. done.
Qed.

Lemma expected_from_full rl c e i :
  maxRequests rl ≤ c →
  expected_from rl c e i =
    {| allowed := false; remaining := 0; cr_resetTime := e |}.
Proof.
  intros H. unfold expected_from.
  destruct (Z.ltb_spec (c + Z.of_nat i) (maxRequests rl)); [lia|done].
Qed.

Lemma checkLimit_seq_active userId nows : ∀ rl d,
  userRequests rl !! userId = Some d →
  Forall (λ now, now < resetTime d) nows →
  (checkLimit_seq userId nows rl).1 =
    expected_from rl (count d) (resetTime d) <$> seq 0 (length nows).
Proof.
  induction nows as [|now nows IH]; intros rl d Hd Hall; [done|].
  apply Forall_cons in Hall as [Hnow Hall].
  cbn [checkLimit_seq length]. unfold bind at 1.
  destruct (Z.lt_ge_cases (count d) (maxRequests rl)) as [Hc|Hc].
  - rewrite (checkLimit_admit _ _ _ d) by done.
    set (rl' := with_userRequests _ _).
    unfold bind, ret.
    specialize (IH rl' {| count := count d + 1; resetTime := resetTime d |}).
    destruct (checkLimit_seq userId nows rl') as [rs rl''].
    simpl in *. rewrite IH; [|by rewrite lookup_insert_eq|done].
    f_equal.
    + unfold expected_from. simpl. rewrite Z.add_0_r.
      apply Z.ltb_lt in Hc. by rewrite Hc.
    + rewrite <- fmap_S_seq, <- list_fmap_compose.
      apply list_fmap_ext. intros _ i _. simpl.
      by apply (expected_from_succ rl).
  - rewrite (checkLimit_reject _ _ _ d) by done.
    unfold bind, ret. specialize (IH rl d Hd Hall).
    destruct (checkLimit_seq userId nows rl) as [rs rl''].
    simpl in *. rewrite IH. f_equal.
    + by rewrite expected_from_full.
    + rewrite <- fmap_S_seq, <- list_fmap_compose.
      apply list_fmap_ext. intros _ i _. simpl.
      by rewrite !expected_from_full.
Qed.

(** C1. For every key and every [maxRequests > 0]: when the first call opens
    the window (no record, or an expired one) and no later call comes at or
    after that window's end, the calls return, in order, [allowed = true]
    with [remaining] = [maxRequests - 1] down to [0], and from call number
    [maxRequests + 1] on [allowed = false] with [remaining = 0]. *)
Theorem C1_window_admits_maxRequests userId t0 nows rl :
  0 < maxRequests rl →
  absent_or_expired t0 (userRequests rl !! userId) = true →
  Forall (λ now, now < t0 + windowMs rl) nows →
  (checkLimit_seq userId (t0 :: nows) rl).1 =
    expected_in_window rl t0 <$> seq 0 (S (length nows)).
Proof.
  intros Hmax Hfresh Hall.
  cbn [checkLimit_seq]. unfold bind at 1.
  rewrite checkLimit_create_or_reset by done.
  set (rl' := with_userRequests _ _).
  pose proof (checkLimit_seq_active userId nows rl'
                {| count := 1; resetTime := t0 + windowMs rl |}) as Hs.
  unfold bind, ret.
  destruct (checkLimit_seq userId nows rl') as [rs rl''].
  simpl in *. rewrite Hs; [|by rewrite lookup_insert_eq|done].
  f_equal.
  - unfold expected_in_window. change (Z.of_nat 0) with 0.
    destruct (Z.ltb_spec 0 (maxRequests rl)); [|lia].
    by rewrite Z.sub_0_r.
  - rewrite <- fmap_S_seq, <- list_fmap_compose.
    apply list_fmap_ext. intros _ i _. simpl.
    unfold expected_from, expected_in_window.
    change (maxRequests rl') with (maxRequests rl).
    replace (1 + Z.of_nat i) with (Z.of_nat (S i)) by lia.
    destruct (Z.of_nat (S i) <? maxRequests rl); f_equal; lia.
Qed.

Lemma C1_window_admits_maxRequests_witness :
  (checkLimit_seq "user-1" [0; 1; 2; 3; 4; 5] rateLimiter).1 =
    [ {| allowed := true; remaining := 4; cr_resetTime := 60000 |};
      {| allowed := true; remaining := 3; cr_resetTime := 60000 |};
      {| allowed := true; remaining := 2; cr_resetTime := 60000 |};
      {| allowed := true; remaining := 1; cr_resetTime := 60000 |};
      {| allowed := true; remaining := 0; cr_resetTime := 60000 |};
      {| allowed := false; remaining := 0; cr_resetTime := 60000 |} ].
Proof.
  apply (C1_window_admits_maxRequests "user-1" 0 [1; 2; 3; 4; 5] rateLimiter).
  - reflexivity.
  - reflexivity.
  - repeat constructor.
Defined.

(** ** C2: a missing or expired record is replaced by a fresh window *)

Lemma absent_or_expired_true now (o : option UserData) :
  absent_or_expired now o = true ↔
  o = None ∨ ∃ d, o = Some d ∧ resetTime d ≤ now.
Proof.
  destruct o as [d|]; simpl.
  - rewrite geb_true_le. split.
    + intros H. right. by exists d.
    + intros [?|(d' & [= <-] & H)]; done.
  - split; [by left|done].
Qed.

(** C2. If no record exists for the key, or the existing record's window end
    has passed ([now >= resetTime]), [checkLimit] stores a fresh record with
    [count = 1] and [resetTime = now + windowMs] in place of any old one and
    returns [allowed = true], [remaining = maxRequests - 1], whatever the
    count of the old record was. *)
Theorem C2_fresh_window userId now rl :
  (userRequests rl !! userId = None ∨
   ∃ d, userRequests rl !! userId = Some d ∧ now >= resetTime d) →
  (checkLimit userId now rl).1 =
    {| allowed := true; remaining := maxRequests rl - 1;
       cr_resetTime := now + windowMs rl |} ∧
  userRequests (checkLimit userId now rl).2 =
    <[userId := {| count := 1; resetTime := now + windowMs rl |}]>
      (userRequests rl) ∧
  maxRequests (checkLimit userId now rl).2 = maxRequests rl ∧
  windowMs (checkLimit userId now rl).2 = windowMs rl.
Proof.
  intros H.
  rewrite checkLimit_create_or_reset; [done|].
  apply absent_or_expired_true.
  destruct H as [H|(d & H & Hd)]; [by left|right].
  exists d. split; [done|lia].
Qed.

Lemma C2_fresh_window_witness :
  (checkLimit "user-1" 60000 saturated).1 =
    {| allowed := true; remaining := 4; cr_resetTime := 120000 |} ∧
  userRequests (checkLimit "user-1" 60000 saturated).2 =
    <[ "user-1" := {| count := 1; resetTime := 120000 |} ]>
      (userRequests saturated) ∧
  maxRequests (checkLimit "user-1" 60000 saturated).2 = 5 ∧
  windowMs (checkLimit "user-1" 60000 saturated).2 = 60000.
Proof.
  apply (C2_fresh_window "user-1" 60000 saturated).
  right. exists {| count := 5; resetTime := 60000 |}.
  split; [reflexivity|]. simpl. lia.
Defined.

(** ** C3: a saturated active window rejects and is left alone *)

(** C3. When the key's record is active ([now < resetTime]) and saturated
    ([count = maxRequests]), [checkLimit] returns [allowed = false],
    [remaining = 0] and the record's own [resetTime], and the limiter is
    exactly as before: the count is not incremented, the window is not
    extended, no other entry moves. *)
Theorem C3_saturated_rejects userId now rl d :
  userRequests rl !! userId = Some d →
  now < resetTime d →
  count d = maxRequests rl →
  checkLimit userId now rl =
    ({| allowed := false; remaining := 0; cr_resetTime := resetTime d |}, rl).
Proof.
  intros Hd Hnow Hc. apply checkLimit_reject; [done|done|lia].
Qed.

Lemma C3_saturated_rejects_witness :
  checkLimit "user-1" 59999 saturated =
    ({| allowed := false; remaining := 0; cr_resetTime := 60000 |}, saturated).
Proof.
  apply (C3_saturated_rejects "user-1" 59999 saturated
           {| count := 5; resetTime := 60000 |}).
  - reflexivity.
  - simpl. lia.
  - reflexivity.
Defined.

(** ** C4: [getStatus] is read-only *)

Lemma getStatus_state userId now rl : (getStatus userId now rl).2 = rl.
Proof.
  unfold getStatus. unfold_M.
  destruct (userRequests rl !! userId) as [d|]; [|done].
  by destruct (now >=? resetTime d).
Qed.

Lemma getStatus_as_it_would_begin userId now rl :
  absent_or_expired now (userRequests rl !! userId) = true →
  (getStatus userId now rl).1 =
    {| st_remaining := maxRequests rl; st_resetTime := now + windowMs rl |}.
Proof.
  intros H. unfold getStatus. unfold_M.
  destruct (userRequests rl !! userId) as [d|]; simpl in H; [|done].
  by rewrite H.
Qed.

Lemma getStatus_active userId now rl d :
  userRequests rl !! userId = Some d →
  now < resetTime d →
  (getStatus userId now rl).1 =
    {| st_remaining := maxRequests rl - count d;
       st_resetTime := resetTime d |}.
Proof.
  intros Hd Hnow. unfold getStatus. unfold_M. rewrite Hd.
  apply geb_false_lt in Hnow. by rewrite Hnow.
Qed.

(** C4. [getStatus] leaves the limiter exactly as it found it (no count or
    window end changes, no record appears for an absent key); for an absent
    or expired key it returns [remaining = maxRequests] and
    [resetTime = now + windowMs] without storing them; and a [checkLimit]
    made after it, at any time, returns and stores what it would have
    without the [getStatus] call. *)
Theorem C4_getStatus_read_only userId now rl :
  (getStatus userId now rl).2 = rl ∧
  ((userRequests rl !! userId = None ∨
    ∃ d, userRequests rl !! userId = Some d ∧ now >= resetTime d) →
   (getStatus userId now rl).1 =
     {| st_remaining := maxRequests rl;
        st_resetTime := now + windowMs rl |} ∧
   userRequests (getStatus userId now rl).2 !! userId =
     userRequests rl !! userId) ∧
  (∀ now', checkLimit userId now' (getStatus userId now rl).2 =
           checkLimit userId now' rl).
Proof.
  split; [apply getStatus_state|]. split.
  - intros H. rewrite getStatus_state. split; [|done].
    apply getStatus_as_it_would_begin, absent_or_expired_true.
    destruct H as [H|(d & H & Hd)]; [by left|right].
    exists d. split; [done|lia].
  - intros now'. by rewrite getStatus_state.
Qed.

Lemma C4_getStatus_read_only_witness :
  (getStatus "nobody" 7 saturated).1 =
    {| st_remaining := 5; st_resetTime := 60007 |} ∧
  userRequests (getStatus "nobody" 7 saturated).2 !! "nobody" = None.
Proof.
  destruct (C4_getStatus_read_only "nobody" 7 saturated) as (_ & H & _).
  apply H. left. reflexivity.
Defined.

(** ** C5: [reset] forgets the key *)

Lemma reset_state userId rl :
  (reset userId rl).2 = with_userRequests rl (delete userId (userRequests rl)).
Proof. done. Qed.

(** C5. [reset] removes the record of the key and nothing else; on an absent
    key it changes nothing, so resetting twice is resetting once; and the
    [checkLimit] that follows returns [allowed = true] with
    [remaining = maxRequests - 1] and [resetTime = now + windowMs], the
    result a newly constructed limiter gives for a key never seen, and
    stores the record of a first request. *)
Theorem C5_reset_forgets userId now rl :
  userRequests (reset userId rl).2 !! userId = None ∧
  (∀ k, k ≠ userId →
        userRequests (reset userId rl).2 !! k = userRequests rl !! k) ∧
  (userRequests rl !! userId = None → (reset userId rl).2 = rl) ∧
  (reset userId (reset userId rl).2).2 = (reset userId rl).2 ∧
  (checkLimit userId now (reset userId rl).2).1 =
    {| allowed := true; remaining := maxRequests rl - 1;
       cr_resetTime := now + windowMs rl |} ∧
  (checkLimit userId now (reset userId rl).2).1 =
    (checkLimit userId now
       (new_RateLimiter (Some (maxRequests rl)) (Some (windowMs rl)))).1 ∧
  userRequests (checkLimit userId now (reset userId rl).2).2 !! userId =
    Some {| count := 1; resetTime := now + windowMs rl |}.
Proof.
  rewrite !reset_state. cbn [userRequests with_userRequests].
  split; [apply lookup_delete_eq|].
  split; [intros k Hk; by apply lookup_delete_ne|].
  split.
  { intros H. rewrite delete_id by done. apply with_userRequests_id. }
  split.
  { unfold with_userRequests. cbn. f_equal. apply delete_delete_eq. }
  rewrite !checkLimit_create_or_reset.
  - cbn. split; [done|]. split; [done|]. apply lookup_insert_eq.
  - done.
  - cbn. by rewrite lookup_delete_eq.
Qed.

Lemma C5_reset_forgets_witness :
  (reset "nobody" saturated).2 = saturated.
Proof.
  destruct (C5_reset_forgets "nobody" 0 saturated) as (_ & _ & H & _).
  apply H. reflexivity.
Defined.

(** ** C6: [cleanup] removes exactly the expired records *)

Lemma for_of_cons {A} (x : A) xs (body : A → M unit) rl :
  for_of (x :: xs) body rl = for_of xs body (body x rl).2.
Proof. cbn [for_of]. unfold bind. by destruct (body x rl). Qed.

Lemma cleanup_body_state now k d rl :
  (cleanup_body now (k, d) rl).2 =
    if now >=? resetTime d
    then with_userRequests rl (delete k (userRequests rl))
    else rl.
Proof. unfold cleanup_body. by destruct (now >=? resetTime d). Qed.

Lemma for_of_cleanup_lookup now k entries : ∀ rl,
  userRequests (for_of entries (cleanup_body now) rl).2 !! k =
    if expired_in now k entries then None else userRequests rl !! k.
Proof.
  induction entries as [|[k' d] entries IH]; intros rl; [done|].
  rewrite for_of_cons, IH, cleanup_body_state.
  cbn [expired_in existsb]. fold (expired_in now k entries).
  destruct (expired_in now k entries); [by rewrite orb_true_r|].
  rewrite orb_false_r.
  destruct (now >=? resetTime d).
  - rewrite andb_true_r. cbn [userRequests with_userRequests].
    case_bool_decide as Hk.
    + subst. apply lookup_delete_eq.
    + by rewrite lookup_delete_ne.
  - by rewrite andb_false_r.
Qed.

Lemma for_of_cleanup_config now entries : ∀ rl,
  maxRequests (for_of entries (cleanup_body now) rl).2 = maxRequests rl ∧
  windowMs (for_of entries (cleanup_body now) rl).2 = windowMs rl.
Proof.
  induction entries as [|[k' d] entries IH]; intros rl; [done|].
  rewrite for_of_cons.
  destruct (IH (cleanup_body now (k', d) rl).2) as [-> ->].
  rewrite cleanup_body_state. by destruct (now >=? resetTime d).
Qed.

Lemma expired_in_map_to_list now k (m : gmap string UserData) :
  expired_in now k (map_to_list m) =
    match m !! k with
    | Some d => now >=? resetTime d
    | None => false
    end.
Proof.
  unfold expired_in.
  destruct (existsb _ _) eqn:E.
  - apply existsb_exists in E as ([k' d] & Hin & Hb).
    apply andb_true_iff in Hb as [Hk Hd].
    apply bool_decide_eq_true in Hk. subst k'.
    apply list_elem_of_In, elem_of_map_to_list in Hin.
    by rewrite Hin.
  - destruct (m !! k) as [d|] eqn:Hm; [|done].
    destruct (now >=? resetTime d) eqn:Hd; [|done].
    assert (existsb (λ '(k', d0), bool_decide (k' = k) && (now >=? resetTime d0))
              (map_to_list m) = true) as E'; [|congruence].
    apply existsb_exists. exists (k, d). split.
    + by apply list_elem_of_In, elem_of_map_to_list.
    + by rewrite bool_decide_eq_true_2.
Qed.

Lemma cleanup_unfold now rl :
  cleanup now rl = for_of (map_to_list (userRequests rl)) (cleanup_body now) rl.
Proof. done. Qed.

(** C6. [cleanup] removes exactly the entries whose [resetTime <= now] at the
    call: every such entry is gone afterwards, every entry with
    [resetTime > now] is still there with the same count and window end, and
    no entry appears. *)
Theorem C6_cleanup_exact now rl k :
  userRequests (cleanup now rl).2 !! k =
    match userRequests rl !! k with
    | Some d => if bool_decide (resetTime d ≤ now) then None else Some d
    | None => None
    end.
Proof.
  rewrite cleanup_unfold, for_of_cleanup_lookup, expired_in_map_to_list.
  destruct (userRequests rl !! k) as [d|]; [|done].
  case_bool_decide as H.
  - apply geb_true_le in H. by rewrite H.
  - assert (now < resetTime d) as H' by lia.
    apply geb_false_lt in H'. by rewrite H'.
Qed.

Example cleanup_mixed :
  userRequests (cleanup 60000 mixed).2 =
    {[ "live" := {| count := 3; resetTime := 60001 |} ]}.
Proof. by vm_compute. Qed.

(** ** C7: keys do not influence each other *)

Lemma checkLimit_other userId now rl k :
  userId ≠ k →
  userRequests (checkLimit userId now rl).2 !! k = userRequests rl !! k.
Proof.
  intros Hk. unfold checkLimit. unfold_M.
  destruct (userRequests rl !! userId) as [d|]; cbn;
    [|by rewrite lookup_insert_ne].
  destruct (now >=? resetTime d); cbn; [by rewrite lookup_insert_ne|].
  destruct (count d <? maxRequests rl); cbn; [by rewrite lookup_insert_ne|done].
Qed.

Lemma checkLimit_local userId now rl1 rl2 :
  agree_on userId rl1 rl2 →
  (checkLimit userId now rl1).1 = (checkLimit userId now rl2).1 ∧
  agree_on userId (checkLimit userId now rl1).2 (checkLimit userId now rl2).2.
Proof.
  intros (Hm & Hw & Hl). unfold agree_on, checkLimit. unfold_M.
  rewrite <- Hl.
  destruct (userRequests rl1 !! userId) as [d|] eqn:E; cbn;
    [|by rewrite !lookup_insert_eq, Hm, Hw].
  destruct (now >=? resetTime d); cbn;
    [by rewrite !lookup_insert_eq, Hm, Hw|].
  rewrite <- Hm.
  destruct (count d <? maxRequests rl1); cbn;
    [by rewrite !lookup_insert_eq|].
  repeat split; congruence.
Qed.

Lemma getStatus_local userId now rl1 rl2 :
  agree_on userId rl1 rl2 →
  (getStatus userId now rl1).1 = (getStatus userId now rl2).1.
Proof.
  intros (Hm & Hw & Hl). unfold getStatus. unfold_M.
  rewrite <- Hl.
  destruct (userRequests rl1 !! userId) as [d|]; cbn;
    [|by rewrite Hm, Hw].
  destruct (now >=? resetTime d); cbn; by rewrite Hm, ?Hw.
Qed.

Lemma do_call_config c rl :
  maxRequests (do_call c rl).2 = maxRequests rl ∧
  windowMs (do_call c rl).2 = windowMs rl.
Proof.
  destruct c as [u now|u now|u]; cbn [do_call]; unfold bind, ret.
  - pose proof (checkLimit_config u now rl).
    by destruct (checkLimit u now rl).
  - pose proof (getStatus_state u now rl) as H.
    destruct (getStatus u now rl); simpl in *. by subst.
  - done.
Qed.

Lemma do_call_other c rl k :
  call_userId c ≠ k →
  userRequests (do_call c rl).2 !! k = userRequests rl !! k.
Proof.
  destruct c as [u now|u now|u]; cbn [do_call call_userId];
    unfold bind, ret; intros Hk.
  - pose proof (checkLimit_other u now rl k Hk).
    by destruct (checkLimit u now rl).
  - pose proof (getStatus_state u now rl) as H.
    destruct (getStatus u now rl); simpl in *. by subst.
  - cbn. by rewrite lookup_delete_ne.
Qed.

Lemma do_call_local c rl1 rl2 :
  agree_on (call_userId c) rl1 rl2 →
  (do_call c rl1).1 = (do_call c rl2).1 ∧
  agree_on (call_userId c) (do_call c rl1).2 (do_call c rl2).2.
Proof.
  destruct c as [u now|u now|u]; cbn [do_call call_userId];
    unfold bind, ret; intros Ha.
  - destruct (checkLimit_local u now rl1 rl2 Ha) as [Hr Ha'].
    destruct (checkLimit u now rl1), (checkLimit u now rl2); simpl in *.
    by subst.
  - pose proof (getStatus_local u now rl1 rl2 Ha) as Hr.
    pose proof (getStatus_state u now rl1) as H1.
    pose proof (getStatus_state u now rl2) as H2.
    destruct (getStatus u now rl1), (getStatus u now rl2); simpl in *.
    by subst.
  - destruct Ha as (Hm & Hw & Hl). split; [done|].
    unfold agree_on. cbn. by rewrite !lookup_delete_eq.
Qed.

Lemma do_calls_cons c cs rl :
  do_calls (c :: cs) rl =
    ((do_call c rl).1 :: (do_calls cs (do_call c rl).2).1,
     (do_calls cs (do_call c rl).2).2).
Proof.
  cbn [do_calls]. unfold bind, ret.
  destruct (do_call c rl) as [r rl']. cbn [fst snd].
  by destruct (do_calls cs rl').
Qed.

Lemma do_calls_other cs k : ∀ rl,
  Forall (λ c, call_userId c ≠ k) cs →
  agree_on k (do_calls cs rl).2 rl.
Proof.
  induction cs as [|c cs IH]; intros rl Hall; [done|].
  apply Forall_cons in Hall as [Hc Hall].
  rewrite do_calls_cons. cbn [snd].
  destruct (IH (do_call c rl).2 Hall) as (Hm & Hw & Hl).
  destruct (do_call_config c rl) as [Hm' Hw'].
  unfold agree_on. rewrite Hm, Hw, Hl, Hm', Hw'.
  by rewrite do_call_other.
Qed.

Lemma do_calls_local cs k : ∀ rl1 rl2,
  Forall (λ c, call_userId c = k) cs →
  agree_on k rl1 rl2 →
  (do_calls cs rl1).1 = (do_calls cs rl2).1 ∧
  agree_on k (do_calls cs rl1).2 (do_calls cs rl2).2.
Proof.
  induction cs as [|c cs IH]; intros rl1 rl2 Hall Ha; [done|].
  apply Forall_cons in Hall as [Hc Hall]. subst k.
  rewrite !do_calls_cons. cbn [fst snd].
  destruct (do_call_local c rl1 rl2 Ha) as [Hr Ha'].
  destruct (IH _ _ Hall Ha') as [Hrs Ha''].
  by rewrite Hr, Hrs.
Qed.

(** C7. For distinct keys [k1] and [k2], no sequence of [checkLimit],
    [getStatus] and [reset] calls on [k1] changes the record stored for [k2]
    (its count, its window end, or its absence), and any calls made on [k2]
    afterwards return what they would have returned without the calls on
    [k1] and leave the same record for [k2]. *)
Theorem C7_keys_independent k1 k2 cs1 cs2 rl :
  k1 ≠ k2 →
  Forall (λ c, call_userId c = k1) cs1 →
  Forall (λ c, call_userId c = k2) cs2 →
  userRequests (do_calls cs1 rl).2 !! k2 = userRequests rl !! k2 ∧
  (do_calls cs2 (do_calls cs1 rl).2).1 = (do_calls cs2 rl).1 ∧
  userRequests (do_calls cs2 (do_calls cs1 rl).2).2 !! k2 =
    userRequests (do_calls cs2 rl).2 !! k2.
Proof.
  intros Hne H1 H2.
  assert (agree_on k2 (do_calls cs1 rl).2 rl) as Ha.
  { apply do_calls_other. eapply Forall_impl; [exact H1|].
    intros c Hc. simpl in Hc. congruence. }
  split; [apply Ha|].
  destruct (do_calls_local cs2 k2 _ _ H2 Ha) as [Hr Ha'].
  split; [done|apply Ha'].
Qed.

Lemma C7_keys_independent_witness :
  (do_calls [Call_checkLimit "user-a" 6]
     (do_calls [Call_checkLimit "user-b" 1; Call_checkLimit "user-b" 2;
                Call_checkLimit "user-b" 3; Call_checkLimit "user-b" 4;
                Call_checkLimit "user-b" 5] two_users).2).1 =
  [Ret_check {| allowed := true; remaining := 3; cr_resetTime := 60000 |}].
Proof.
  destruct (C7_keys_independent "user-b" "user-a"
              [Call_checkLimit "user-b" 1; Call_checkLimit "user-b" 2;
               Call_checkLimit "user-b" 3; Call_checkLimit "user-b" 4;
               Call_checkLimit "user-b" 5]
              [Call_checkLimit "user-a" 6] two_users) as (_ & H & _).
  - discriminate.
  - repeat constructor.
  - repeat constructor.
  - rewrite H. reflexivity.
Defined.

(** ** Identity resolution: C8 and C10 *)

Lemma truthy_false v : truthy v = false ↔ absent_or_empty v.
Proof.
  unfold absent_or_empty. destruct v as [s|]; simpl.
  - rewrite negb_false_iff, String.eqb_eq. split.
    + intros ->. by right.
    + by intros [?|[= ->]].
  - split; [by left|done].
Qed.

Lemma js_or_falsy_l a b : truthy a = false → js_or a b = b.
Proof. unfold js_or. by intros ->. Qed.

Lemma js_or_truthy_l a b : truthy a = true → js_or a b = a.
Proof. unfold js_or. by intros ->. Qed.

Lemma js_or_lit_falsy a lit : truthy a = false → js_or_lit a lit = lit.
Proof. unfold js_or_lit. destruct a; [by intros ->|done]. Qed.

Lemma js_or_lit_truthy a lit :
  truthy a = true → Some (js_or_lit a lit) = a.
Proof. unfold js_or_lit. destruct a; [by intros ->|done]. Qed.

Lemma js_or_lit_given a lit :
  js_or_lit a lit = match given a with Some s => s | None => lit end.
Proof.
  destruct a as [s|]; simpl; [|done].
  by destruct (String.eqb s EmptyString).
Qed.

Lemma given_js_or a b :
  given (js_or a b) = match given a with Some s => Some s | None => given b end.
Proof.
  unfold js_or. destruct a as [s|]; simpl; [|done].
  destruct (String.eqb s EmptyString) eqn:E; simpl; [done|].
  by rewrite E.
Qed.

Lemma userId_middleware_spec req : userId_middleware req = spec_identity req.
Proof.
  unfold userId_middleware, spec_identity.
  rewrite js_or_lit_given, !given_js_or.
  destruct (given (headers_x_user_id req)); [done|].
  by destruct (given (query_userId req)).
Qed.

Lemma no_identity_falsy req :
  no_identity req ↔
  truthy (headers_x_user_id req) = false ∧
  truthy (query_userId req) = false ∧
  truthy (req_body_userId req) = false.
Proof. unfold no_identity. by rewrite !truthy_false. Qed.

(** The middleware is [checkLimit] on the resolved id, plus headers. *)
Lemma rateLimiterMiddleware_unfold req now now' rl :
  rateLimiterMiddleware req now now' rl =
    let r := (checkLimit (userId_middleware req) now rl).1 in
    let rl' := (checkLimit (userId_middleware req) now rl).2 in
    (({| X_RateLimit_Limit := maxRequests rl';
         X_RateLimit_Remaining := remaining r;
         X_RateLimit_Reset := cr_resetTime r |},
      if allowed r then Next
      else Answered (Too_many_requests (cr_resetTime r)
                       (ceil_seconds (cr_resetTime r - now')))),
     rl').
Proof.
  unfold rateLimiterMiddleware, bind, this_maxRequests, ret.
  destruct (checkLimit (userId_middleware req) now rl) as [r rl'].
  cbn [fst snd]. by destruct (allowed r).
Qed.

(** C10. When header, query parameter and body field are all missing or the
    empty string, the middleware resolves the key to ["anonymous"]: the
    request is accounted exactly like one carrying no identity at all, it
    consumes from the ["anonymous"] record, and the record of the
    empty-string key is not touched. *)
Theorem C10_empty_identity_is_anonymous req now now' rl :
  no_identity req →
  userId_middleware req = "anonymous" ∧
  rateLimiterMiddleware req now now' rl =
    rateLimiterMiddleware bare_request now now' rl ∧
  (rateLimiterMiddleware req now now' rl).2 =
    (checkLimit "anonymous" now rl).2 ∧
  userRequests (rateLimiterMiddleware req now now' rl).2 !! EmptyString =
    userRequests rl !! EmptyString.
Proof.
  intros (Hh & Hq & Hb)%no_identity_falsy.
  assert (userId_middleware req = "anonymous") as Hid.
  { unfold userId_middleware.
    rewrite (js_or_falsy_l (headers_x_user_id req)) by done.
    rewrite js_or_falsy_l by done. by apply js_or_lit_falsy. }
  split; [done|].
  rewrite !rateLimiterMiddleware_unfold, Hid. cbn [fst snd].
  split; [done|]. split; [done|].
  by apply checkLimit_other.
Qed.

Lemma C10_empty_identity_is_anonymous_witness :
  userId_middleware
    {| headers_x_user_id := Some EmptyString; query_userId := Some EmptyString;
       body := Some {| body_userId := Some EmptyString |} |} = "anonymous".
Proof.
  destruct (C10_empty_identity_is_anonymous
              {| headers_x_user_id := Some EmptyString; query_userId := Some EmptyString;
                 body := Some {| body_userId := Some EmptyString |} |}
              0 0 rateLimiter) as [H _].
  - repeat split; right; reflexivity.
  - exact H.
Defined.

(** The reset route asked without any identity: its guard answers 400 and
    the limiter is left alone. *)
Example reset_route_without_identity :
  resolve Post_api_reset_rate_limit bare_request = None ∧
  post_api_reset_rate_limit bare_request rateLimiter
    = (Bad_request, rateLimiter).
Proof. by split. Qed.

(** C8. The routes do not apply one precedence.  Take a request without
    identity header whose query parameter names ["user-a"] and whose body
    field names ["user-b"]: the order header, query parameter, body field
    resolves ["user-a"], and so does the middleware, as its comment
    "Priority: header > query > body" says; the [POST /api/data] handler
    behind it and the reset route resolve ["user-b"], so that the reset route
    removes the record of ["user-b"] and leaves that of ["user-a"].  Take a
    request carrying a body field only: the middleware resolves it, the
    [GET /api/data] handler and the status route resolve ["anonymous"].  So
    it is false that every endpoint resolves the identity in the order
    header, query parameter, body field, ["anonymous"]. *)
Theorem C8_precedence_not_uniform :
  (spec_identity split_request = "user-a" ∧
   resolve Middleware split_request = Some "user-a" ∧
   resolve Post_api_data split_request = Some "user-b" ∧
   resolve Post_api_reset_rate_limit split_request = Some "user-b") ∧
  ((post_api_reset_rate_limit split_request both_users).1
     = Ok_reset "user-b" ∧
   userRequests both_users !! "user-a"
     = Some {| count := 1; resetTime := 60000 |} ∧
   userRequests both_users !! "user-b"
     = Some {| count := 1; resetTime := 60001 |} ∧
   userRequests (post_api_reset_rate_limit split_request both_users).2
     !! "user-a" = Some {| count := 1; resetTime := 60000 |} ∧
   userRequests (post_api_reset_rate_limit split_request both_users).2
     !! "user-b" = None) ∧
  (spec_identity body_only_request = "user-b" ∧
   resolve Middleware body_only_request = Some "user-b" ∧
   resolve Get_api_data body_only_request = Some "anonymous" ∧
   resolve Get_api_rate_limit_status body_only_request = Some "anonymous") ∧
  ¬ (∀ e req, resolve e req = Some (spec_identity req)).
Proof.
  split; [by repeat split|].
  split; [by vm_compute|].
  split; [by repeat split|].
  intros H. specialize (H Post_api_data split_request).
  discriminate H.
Qed.

(** ** C9: the seconds reported and the sign of [remaining] *)

Lemma ceil_seconds_spec x :
  1000 * (ceil_seconds x - 1) < x ≤ 1000 * ceil_seconds x.
Proof.
  unfold ceil_seconds.
  pose proof (Z.div_mod (- x) 1000 ltac:(lia)) as Hdm.
  pose proof (Z.mod_pos_bound (- x) 1000 ltac:(lia)) as Hb.
  lia.
Qed.

Lemma ceil_seconds_unique x q :
  1000 * (q - 1) < x ≤ 1000 * q → ceil_seconds x = q.
Proof. pose proof (ceil_seconds_spec x). lia. Qed.

Lemma ceil_seconds_pos x : 0 < x → 1 ≤ ceil_seconds x.
Proof. pose proof (ceil_seconds_spec x). lia. Qed.

Lemma checkLimit_rejected userId now rl :
  allowed (checkLimit userId now rl).1 = false →
  ∃ d, userRequests rl !! userId = Some d ∧ now < resetTime d ∧
       maxRequests rl ≤ count d ∧
       cr_resetTime (checkLimit userId now rl).1 = resetTime d.
Proof.
  unfold checkLimit. unfold_M.
  destruct (userRequests rl !! userId) as [d|]; cbn; [|done].
  destruct (now >=? resetTime d) eqn:Hd; cbn; [done|].
  destruct (count d <? maxRequests rl) eqn:Hc; cbn; [done|].
  intros _. exists d. apply geb_false_lt in Hd. apply Z.ltb_ge in Hc. done.
Qed.

Lemma checkLimit_counts userId now rl :
  1 ≤ maxRequests rl → counts_in_range rl →
  0 ≤ remaining (checkLimit userId now rl).1 ∧
  counts_in_range (checkLimit userId now rl).2.
Proof.
  intros Hmax Hinv.
  assert (∀ d, 1 ≤ count d ≤ maxRequests rl →
               counts_in_range
                 (with_userRequests rl (<[userId := d]> (userRequests rl))))
    as Hins.
  { intros d Hd k d'. cbn. destruct (decide (userId = k)) as [->|Hk].
    - rewrite lookup_insert_eq. by intros [= <-].
    - rewrite lookup_insert_ne by done. apply Hinv. }
  destruct (absent_or_expired now (userRequests rl !! userId)) eqn:E.
  { rewrite checkLimit_create_or_reset by done. cbn [fst snd remaining].
    split; [lia|]. apply Hins. cbn. lia. }
  destruct (userRequests rl !! userId) as [d|] eqn:Hd; [|done].
  simpl in E. apply geb_false_lt in E.
  pose proof (Hinv _ _ Hd) as Hcd.
  destruct (Z.lt_ge_cases (count d) (maxRequests rl)) as [Hc|Hc].
  - rewrite (checkLimit_admit _ _ _ d) by done. cbn [fst snd remaining].
    split; [lia|]. apply Hins. cbn. lia.
  - rewrite (checkLimit_reject _ _ _ d) by done. cbn [fst snd remaining].
    done.
Qed.

Lemma getStatus_counts userId now rl :
  1 ≤ maxRequests rl → counts_in_range rl →
  0 ≤ st_remaining (getStatus userId now rl).1.
Proof.
  intros Hmax Hinv.
  destruct (absent_or_expired now (userRequests rl !! userId)) eqn:E.
  { rewrite getStatus_as_it_would_begin by done. cbn. lia. }
  destruct (userRequests rl !! userId) as [d|] eqn:Hd; [|done].
  simpl in E. apply geb_false_lt in E.
  rewrite (getStatus_active _ _ _ d) by done. cbn.
  pose proof (Hinv _ _ Hd). lia.
Qed.

Lemma cleanup_lookup now rl k :
  userRequests (cleanup now rl).2 !! k =
    match userRequests rl !! k with
    | Some d => if now >=? resetTime d then None else Some d
    | None => None
    end.
Proof.
  rewrite cleanup_unfold, for_of_cleanup_lookup, expired_in_map_to_list.
  destruct (userRequests rl !! k) as [d|]; [|done].
  by destruct (now >=? resetTime d).
Qed.

Lemma cleanup_config now rl :
  maxRequests (cleanup now rl).2 = maxRequests rl ∧
  windowMs (cleanup now rl).2 = windowMs rl.
Proof. rewrite cleanup_unfold. apply for_of_cleanup_config. Qed.

Lemma reachable_counts max w rl :
  1 ≤ max → reachable max w rl →
  maxRequests rl = max ∧ windowMs rl = w ∧ counts_in_range rl.
Proof.
  intros Hmax Hr.
  induction Hr as [|rl c Hr (IHm & IHw & IH)|rl now Hr (IHm & IHw & IH)].
  - by repeat split.
  - destruct (do_call_config c rl) as [-> ->].
    split; [done|]. split; [done|].
    destruct c as [u now|u now|u]; cbn [do_call]; unfold bind, ret.
    + pose proof (checkLimit_counts u now rl) as Hc.
      destruct (checkLimit u now rl). apply Hc; [lia|done].
    + pose proof (getStatus_state u now rl) as Hs.
      destruct (getStatus u now rl). simpl in *. by subst.
    + intros k d. cbn. intros [_ H]%lookup_delete_Some. exact (IH k d H).
  - destruct (cleanup_config now rl) as [Hm Hw].
    split; [congruence|]. split; [congruence|].
    intros k d. rewrite cleanup_lookup, Hm.
    destruct (userRequests rl !! k) as [d'|] eqn:Hk; [|done].
    destruct (now >=? resetTime d'); [done|].
    intros [= <-]. exact (IH k d' Hk).
Qed.

Lemma get_api_rate_limit_status_unfold req now now' rl :
  get_api_rate_limit_status req now now' rl =
    let s := (getStatus (userId_get req) now rl).1 in
    (Ok_status (userId_get req) (maxRequests rl) (windowMs rl)
       (st_remaining s) (st_resetTime s)
       (ceil_seconds (st_resetTime s - now')), rl).
Proof.
  unfold get_api_rate_limit_status, bind, this_maxRequests, this_windowMs, ret.
  pose proof (getStatus_state (userId_get req) now rl) as H.
  destruct (getStatus (userId_get req) now rl) as [s rl']. simpl in *.
  by subst.
Qed.

Lemma getStatus_resetTime_future userId now rl :
  0 < windowMs rl → now < st_resetTime (getStatus userId now rl).1.
Proof.
  intros Hw.
  destruct (absent_or_expired now (userRequests rl !! userId)) eqn:E.
  { rewrite getStatus_as_it_would_begin by done. cbn. lia. }
  destruct (userRequests rl !! userId) as [d|] eqn:Hd; [|done].
  simpl in E. apply geb_false_lt in E.
  by rewrite (getStatus_active _ _ _ d).
Qed.

(** The scenario limiter is saturated by five requests. *)
Example saturated_after_five :
  (checkLimit_seq "user-1" [0; 1; 2; 3; 4] rateLimiter).2 = saturated.
Proof. by vm_compute. Qed.

(** The clock is read again when the answer is built.  Two seconds after a
    window end at 60000, a rejection decided at 59999 reports [-2]. *)
Lemma C9_counterexample :
  (rateLimiterMiddleware (request_of "user-1") 59999 62000 saturated).1.2 =
    Answered (Too_many_requests 60000 (-2)) ∧
  seconds_reported
    (get_api_rate_limit_status (request_of "user-1") 59999 62000 saturated).1 =
    Some (-2) ∧
  -2 < 0.
Proof. by vm_compute. Qed.

(** C9 (amended). The [retryAfter] of a 429 body and the [resetInSeconds] of
    the status route are [ceil((resetTime - now') / 1000)], a whole number
    of seconds, where [now'] is the clock read when the answer is built and
    [resetTime] the window end returned by the limiter, which lies after the
    clock the limiter read (for the status route, given [windowMs > 0]).
    The value is at least 1 whenever [now' < resetTime]; no floor at 0 is
    applied.  With [maxRequests >= 1], on every limiter reachable from a
    constructed one, [remaining] is never negative: not in the result of
    [checkLimit], not in the result of [getStatus], not in the
    [X-RateLimit-Remaining] header. *)
Theorem C9_seconds_and_remaining req now now' rl :
  (∀ resetT retry,
     (rateLimiterMiddleware req now now' rl).1.2 =
       Answered (Too_many_requests resetT retry) →
     retry = ceil_seconds (resetT - now') ∧
     1000 * (retry - 1) < resetT - now' ≤ 1000 * retry ∧
     now < resetT ∧
     (now' < resetT → 1 ≤ retry)) ∧
  (∀ secs,
     seconds_reported (get_api_rate_limit_status req now now' rl).1 =
       Some secs →
     let resetT := st_resetTime (getStatus (userId_get req) now rl).1 in
     secs = ceil_seconds (resetT - now') ∧
     1000 * (secs - 1) < resetT - now' ≤ 1000 * secs ∧
     (0 < windowMs rl → now < resetT) ∧
     (now' < resetT → 1 ≤ secs)) ∧
  (∀ max w, 1 ≤ max → reachable max w rl →
     (∀ k, 0 ≤ remaining (checkLimit k now rl).1 ∧
           0 ≤ st_remaining (getStatus k now rl).1) ∧
     0 ≤ X_RateLimit_Remaining (rateLimiterMiddleware req now now' rl).1.1).
Proof.
  split; [|split].
  - intros resetT retry. rewrite rateLimiterMiddleware_unfold. cbn [fst snd].
    destruct (allowed _) eqn:Ha; [done|]. intros [= <- <-].
    apply checkLimit_rejected in Ha as (d & _ & Hnow & _ & ->).
    split; [done|]. split; [apply ceil_seconds_spec|].
    split; [done|]. intros H. apply ceil_seconds_pos. lia.
  - intros secs. rewrite get_api_rate_limit_status_unfold.
    cbn [fst seconds_reported]. intros [= <-]. cbn zeta.
    split; [done|]. split; [apply ceil_seconds_spec|].
    split; [apply getStatus_resetTime_future|].
    intros H. apply ceil_seconds_pos. lia.
  - intros max w Hmax (Hm & _ & Hinv)%reachable_counts; [|done].
    assert (1 ≤ maxRequests rl) as Hmax' by lia.
    split.
    + intros k. split; [by apply checkLimit_counts|by apply getStatus_counts].
    + rewrite rateLimiterMiddleware_unfold. cbn [fst X_RateLimit_Remaining].
      by apply checkLimit_counts.
Qed.

Lemma C9_seconds_and_remaining_witness :
  1 ≤ ceil_seconds (60000 - 59999) ∧
  0 ≤ remaining (checkLimit "user-1" 0 rateLimiter).1.
Proof.
  split.
  - destruct (C9_seconds_and_remaining (request_of "user-1") 59999 59999
                saturated) as (H & _ & _).
    destruct (H 60000 (ceil_seconds (60000 - 59999))) as (_ & _ & _ & H').
    + reflexivity.
    + apply H'. lia.
  - destruct (C9_seconds_and_remaining (request_of "user-1") 0 0 rateLimiter)
      as (_ & _ & H).
    destruct (H 5 60000) as [H' _].
    + lia.
    + apply reach_new.
    + apply H'.
Defined.

(** * Further properties of the limiter and its routes *)

(** ** Invariants of the store *)

(** X1. Whatever calls and [cleanup] ticks a limiter constructed with
    [maxRequests >= 1] has gone through, its configuration is the one it was
    constructed with and every stored record counts at least one and at most
    [maxRequests] requests. *)
Theorem X1_reachable_invariant max w rl :
  1 ≤ max → reachable max w rl →
  maxRequests rl = max ∧ windowMs rl = w ∧
  ∀ k d, userRequests rl !! k = Some d → 1 ≤ count d ≤ max.
Proof.
  intros Hmax Hr.
  destruct (reachable_counts max w rl Hmax Hr) as (Hm & Hw & Hinv).
  split; [done|]. split; [done|].
  intros k d Hk. rewrite <- Hm. by apply (Hinv k).
Qed.

Lemma X1_reachable_invariant_witness :
  maxRequests two_users = 5 ∧ windowMs two_users = 60000 ∧
  1 ≤ count {| count := 1; resetTime := 60000 |} ≤ 5.
Proof.
  destruct (X1_reachable_invariant 5 60000 two_users) as (Hm & Hw & H).
  - lia.
  - apply (reach_call 5 60000 rateLimiter (Call_checkLimit "user-a" 0)).
    apply reach_new.
  - split; [exact Hm|]. split; [exact Hw|].
    apply (H "user-a"). reflexivity.
Defined.

Lemma checkLimit_leaves_active userId now rl :
  0 < windowMs rl → active_at now (checkLimit userId now rl).2 userId.
Proof.
  intros Hw. unfold active_at.
  destruct (absent_or_expired now (userRequests rl !! userId)) eqn:E.
  { rewrite checkLimit_create_or_reset by done. cbn.
    eexists. rewrite lookup_insert_eq. split; [done|]. cbn. lia. }
  destruct (userRequests rl !! userId) as [d|] eqn:Hd; [|done].
  simpl in E. apply geb_false_lt in E.
  destruct (Z.lt_ge_cases (count d) (maxRequests rl)) as [Hc|Hc].
  - rewrite (checkLimit_admit _ _ _ d) by done. cbn.
    eexists. rewrite lookup_insert_eq. split; [done|]. done.
  - rewrite (checkLimit_reject _ _ _ d) by done. cbn. by exists d.
Qed.

Lemma checkLimit_dom userId now rl :
  dom (userRequests (checkLimit userId now rl).2) =
    {[ userId ]} ∪ dom (userRequests rl).
Proof.
  destruct (absent_or_expired now (userRequests rl !! userId)) eqn:E.
  { rewrite checkLimit_create_or_reset by done. cbn. apply dom_insert_L. }
  destruct (userRequests rl !! userId) as [d|] eqn:Hd; [|done].
  simpl in E. apply geb_false_lt in E.
  destruct (Z.lt_ge_cases (count d) (maxRequests rl)) as [Hc|Hc].
  - rewrite (checkLimit_admit _ _ _ d) by done. cbn. apply dom_insert_L.
  - rewrite (checkLimit_reject _ _ _ d) by done. cbn.
    symmetry. apply subseteq_union_1_L, singleton_subseteq_l.
    apply elem_of_dom. by exists d.
Qed.

(** X2. With [windowMs > 0], [checkLimit] always leaves a record for its key
    whose window is open at the clock it read, admitted or not, and it adds
    no other key to the store: the keys afterwards are the keys before plus
    the one asked about. *)
Theorem X2_checkLimit_leaves_open_record userId now rl :
  0 < windowMs rl →
  active_at now (checkLimit userId now rl).2 userId ∧
  dom (userRequests (checkLimit userId now rl).2) =
    {[ userId ]} ∪ dom (userRequests rl).
Proof.
  intros Hw. split; [by apply checkLimit_leaves_active|apply checkLimit_dom].
Qed.

Lemma X2_checkLimit_leaves_open_record_witness :
  active_at 59999 (checkLimit "user-1" 59999 saturated).2 "user-1" ∧
  dom (userRequests (checkLimit "user-1" 59999 saturated).2) =
    {[ "user-1" ]} ∪ dom (userRequests saturated).
Proof.
  apply (X2_checkLimit_leaves_open_record "user-1" 59999 saturated).
  reflexivity.
Defined.

(** ** [getStatus] and [checkLimit] agree *)

(** X3. With [maxRequests >= 1], [getStatus] predicts [checkLimit] at the
    same clock value: the request is admitted exactly when the status shows
    something remaining, an admitted request leaves one less than the status
    showed, and both report the same window end. *)
Theorem X3_getStatus_predicts_checkLimit userId now rl :
  1 ≤ maxRequests rl →
  let s := (getStatus userId now rl).1 in
  let r := (checkLimit userId now rl).1 in
  (allowed r = true ↔ 0 < st_remaining s) ∧
  (allowed r = true → remaining r = st_remaining s - 1) ∧
  cr_resetTime r = st_resetTime s.
Proof.
  intros Hmax. cbn zeta.
  destruct (absent_or_expired now (userRequests rl !! userId)) eqn:E.
  { rewrite checkLimit_create_or_reset, getStatus_as_it_would_begin by done.
    cbn. repeat split; try done. lia. }
  destruct (userRequests rl !! userId) as [d|] eqn:Hd; [|done].
  simpl in E. apply geb_false_lt in E.
  rewrite (getStatus_active _ _ _ d) by done.
  destruct (Z.lt_ge_cases (count d) (maxRequests rl)) as [Hc|Hc].
  - rewrite (checkLimit_admit _ _ _ d) by done. cbn.
    repeat split; try done; lia.
  - rewrite (checkLimit_reject _ _ _ d) by done. cbn.
    repeat split; try done; lia.
Qed.

Lemma X3_getStatus_predicts_checkLimit_witness :
  (allowed (checkLimit "user-1" 59999 saturated).1 = true ↔
   0 < st_remaining (getStatus "user-1" 59999 saturated).1) ∧
  (allowed (checkLimit "user-1" 59999 saturated).1 = true →
   remaining (checkLimit "user-1" 59999 saturated).1 =
     st_remaining (getStatus "user-1" 59999 saturated).1 - 1) ∧
  cr_resetTime (checkLimit "user-1" 59999 saturated).1 =
    st_resetTime (getStatus "user-1" 59999 saturated).1.
Proof.
  apply (X3_getStatus_predicts_checkLimit "user-1" 59999 saturated).
  cbn. lia.
Defined.

Lemma getStatus_after_checkLimit userId now now_h rl :
  counts_in_range rl →
  now_h < cr_resetTime (checkLimit userId now rl).1 →
  (getStatus userId now_h (checkLimit userId now rl).2).1 =
    {| st_remaining := remaining (checkLimit userId now rl).1;
       st_resetTime := cr_resetTime (checkLimit userId now rl).1 |}.
Proof.
  intros Hinv.
  destruct (absent_or_expired now (userRequests rl !! userId)) eqn:E.
  { rewrite checkLimit_create_or_reset by done. cbn [fst snd cr_resetTime].
    intros Hh. erewrite getStatus_active; [|apply lookup_insert_eq|done].
    done. }
  destruct (userRequests rl !! userId) as [d|] eqn:Hd; [|done].
  simpl in E. apply geb_false_lt in E.
  destruct (Z.lt_ge_cases (count d) (maxRequests rl)) as [Hc|Hc].
  - rewrite (checkLimit_admit _ _ _ d) by done. cbn [fst snd cr_resetTime].
    intros Hh. erewrite getStatus_active; [|apply lookup_insert_eq|done].
    done.
  - rewrite (checkLimit_reject _ _ _ d) by done. cbn [fst snd cr_resetTime].
    intros Hh. rewrite (getStatus_active _ _ _ d) by done.
    pose proof (Hinv _ _ Hd). cbn. f_equal. lia.
Qed.

(** X4. On a store whose counts do not exceed [maxRequests], a [getStatus]
    made after a [checkLimit] of the same key, at any clock value before the
    window end that [checkLimit] returned, reports the [remaining] and the
    window end of that [checkLimit], whether the request was admitted or
    rejected. *)
Theorem X4_getStatus_after_checkLimit userId now now_h rl :
  counts_in_range rl →
  now_h < cr_resetTime (checkLimit userId now rl).1 →
  st_remaining (getStatus userId now_h (checkLimit userId now rl).2).1 =
    remaining (checkLimit userId now rl).1 ∧
  st_resetTime (getStatus userId now_h (checkLimit userId now rl).2).1 =
    cr_resetTime (checkLimit userId now rl).1.
Proof.
  intros Hinv Hh. by rewrite getStatus_after_checkLimit.
Qed.

Lemma X4_getStatus_after_checkLimit_witness :
  st_remaining
    (getStatus "user-1" 59999 (checkLimit "user-1" 59998 saturated).2).1 = 0 ∧
  st_resetTime
    (getStatus "user-1" 59999 (checkLimit "user-1" 59998 saturated).2).1 =
    60000.
Proof.
  apply (X4_getStatus_after_checkLimit "user-1" 59998 59999 saturated).
  - intros k d. cbn. intros [_ <-]%lookup_singleton_Some. cbn. lia.
  - vm_compute. reflexivity.
Defined.

(** ** At most [maxRequests] admissions per window, whatever the clock does *)

Lemma checkLimit_seq_cons userId now nows rl :
  checkLimit_seq userId (now :: nows) rl =
    ((checkLimit userId now rl).1 ::
       (checkLimit_seq userId nows (checkLimit userId now rl).2).1,
     (checkLimit_seq userId nows (checkLimit userId now rl).2).2).
Proof.
  cbn [checkLimit_seq]. unfold bind, ret.
  destruct (checkLimit userId now rl) as [r rl']. cbn [fst snd].
  by destruct (checkLimit_seq userId nows rl').
Qed.

Lemma count_admitted_cons e r rs :
  count_admitted e (r :: rs) =
    if allowed r && (cr_resetTime r =? e) then S (count_admitted e rs)
    else count_admitted e rs.
Proof.
  unfold count_admitted. cbn [List.filter].
  by destruct (allowed r && (cr_resetTime r =? e)).
Qed.

Lemma window_budget_insert rl k d e :
  window_budget (with_userRequests rl (<[k := d]> (userRequests rl))) k e =
    if e <? resetTime d then 0
    else if e =? resetTime d then maxRequests rl - count d
    else maxRequests rl.
Proof. unfold window_budget. cbn. by rewrite lookup_insert_eq. Qed.

Lemma checkLimit_seq_budget userId e nows : ∀ rl,
  0 < windowMs rl → 1 ≤ maxRequests rl → counts_in_range rl →
  Z.of_nat (count_admitted e (checkLimit_seq userId nows rl).1)
    ≤ window_budget rl userId e.
Proof.
  induction nows as [|now nows IH]; intros rl Hw Hmax Hinv.
  { cbn. unfold window_budget.
    destruct (userRequests rl !! userId) as [d|] eqn:Hd; [|lia].
    pose proof (Hinv _ _ Hd).
    destruct (e <? resetTime d); [lia|]. destruct (e =? resetTime d); lia. }
  rewrite checkLimit_seq_cons. cbn [fst]. rewrite count_admitted_cons.
  destruct (checkLimit_config userId now rl) as [Hm' Hw'].
  destruct (checkLimit_counts userId now rl Hmax Hinv) as [_ Hinv'].
  specialize (IH (checkLimit userId now rl).2).
  rewrite Hm', Hw' in IH. specialize (IH Hw Hmax Hinv').
  revert IH.
  destruct (absent_or_expired now (userRequests rl !! userId)) eqn:E.
  { rewrite checkLimit_create_or_reset by done.
    cbn [fst snd allowed cr_resetTime andb].
    rewrite window_budget_insert. cbn [count resetTime].
    unfold window_budget.
    destruct (userRequests rl !! userId) as [d|] eqn:Hd.
    - simpl in E. apply geb_true_le in E. pose proof (Hinv _ _ Hd).
      destruct (Z.ltb_spec e (now + windowMs rl)),
        (Z.eqb_spec e (now + windowMs rl)),
        (Z.eqb_spec (now + windowMs rl) e),
        (Z.ltb_spec e (resetTime d)), (Z.eqb_spec e (resetTime d));
        cbv iota; lia.
    - destruct (Z.ltb_spec e (now + windowMs rl)),
        (Z.eqb_spec e (now + windowMs rl)),
        (Z.eqb_spec (now + windowMs rl) e); cbv iota; lia. }
  destruct (userRequests rl !! userId) as [d|] eqn:Hd; [|done].
  simpl in E. apply geb_false_lt in E.
  pose proof (Hinv _ _ Hd) as Hcd.
  destruct (Z.lt_ge_cases (count d) (maxRequests rl)) as [Hc|Hc].
  - rewrite (checkLimit_admit _ _ _ d) by done.
    cbn [fst snd allowed cr_resetTime andb].
    rewrite window_budget_insert. cbn [count resetTime].
    unfold window_budget. rewrite Hd.
    destruct (Z.ltb_spec e (resetTime d)), (Z.eqb_spec e (resetTime d)),
      (Z.eqb_spec (resetTime d) e); cbv iota; lia.
  - rewrite (checkLimit_reject _ _ _ d) by done.
    cbn [fst snd allowed andb]. lia.
Qed.

(** X5. With [windowMs > 0] and [maxRequests >= 1], on a store whose counts
    are in range, any run of [checkLimit] calls for one key admits at most
    [maxRequests] requests into any one window, whatever clock values the
    calls read (in any order, repeated, before or after any window end). *)
Theorem X5_at_most_maxRequests_per_window userId nows e rl :
  0 < windowMs rl → 1 ≤ maxRequests rl → counts_in_range rl →
  Z.of_nat (count_admitted e (checkLimit_seq userId nows rl).1)
    ≤ maxRequests rl.
Proof.
  intros Hw Hmax Hinv.
  etrans; [by apply checkLimit_seq_budget|].
  unfold window_budget.
  destruct (userRequests rl !! userId) as [d|] eqn:Hd; [|lia].
  pose proof (Hinv _ _ Hd).
  destruct (e <? resetTime d); [lia|]. destruct (e =? resetTime d); lia.
Qed.

Lemma counts_in_range_new max w :
  counts_in_range (new_RateLimiter (Some max) (Some w)).
Proof. intros k d. cbn. by rewrite lookup_empty. Qed.

Lemma X5_at_most_maxRequests_per_window_witness :
  Z.of_nat (count_admitted 60000
              (checkLimit_seq "user-1" [0; 7; 3; 59999; 5; 1; 2; 60000; 4]
                 rateLimiter).1) ≤ 5.
Proof.
  apply (X5_at_most_maxRequests_per_window "user-1"
           [0; 7; 3; 59999; 5; 1; 2; 60000; 4] 60000 rateLimiter).
  - reflexivity.
  - cbn. lia.
  - apply counts_in_range_new.
Defined.

(** ** [cleanup] is invisible to later calls *)

Lemma RateLimiter_eq rl1 rl2 :
  maxRequests rl1 = maxRequests rl2 →
  windowMs rl1 = windowMs rl2 →
  userRequests rl1 = userRequests rl2 →
  rl1 = rl2.
Proof. destruct rl1, rl2. cbn. by intros -> -> ->. Qed.

Lemma cleanup_state now rl :
  (cleanup now rl).2 =
    with_userRequests rl (filter (still_open now) (userRequests rl)).
Proof.
  destruct (cleanup_config now rl) as [Hm Hw].
  apply RateLimiter_eq; [done|done|].
  apply map_eq. intros k. rewrite cleanup_lookup.
  cbn [userRequests with_userRequests].
  apply option_eq. intros d'.
  rewrite map_lookup_filter_Some. unfold still_open. cbn [snd].
  destruct (userRequests rl !! k) as [d|]; [|by split; [|intros []]].
  destruct (now >=? resetTime d) eqn:E.
  - apply geb_true_le in E. split; [done|]. intros [[= ->] ?]. lia.
  - apply geb_false_lt in E. split; [by intros [= ->]|by intros []].
Qed.

Lemma cleanup_agree now now' rl k :
  now ≤ now' →
  absent_or_expired now' (userRequests rl !! k) = false →
  agree_on k (cleanup now rl).2 rl.
Proof.
  intros Hle Ha. destruct (cleanup_config now rl) as [Hm Hw].
  split; [done|]. split; [done|]. rewrite cleanup_lookup.
  destruct (userRequests rl !! k) as [d|]; [|done].
  simpl in Ha. apply geb_false_lt in Ha.
  assert (now < resetTime d) as H by lia.
  apply geb_false_lt in H. by rewrite H.
Qed.

Lemma cleanup_keeps_expiry now now' rl k :
  now ≤ now' →
  absent_or_expired now' (userRequests rl !! k) = true →
  absent_or_expired now' (userRequests (cleanup now rl).2 !! k) = true.
Proof.
  intros Hle Ha. rewrite cleanup_lookup.
  destruct (userRequests rl !! k) as [d|]; [|done].
  by destruct (now >=? resetTime d).
Qed.

(** X6. A [cleanup] is invisible to every call made afterwards, as long as
    the clock has not gone back: at any [now' >= now], [checkLimit] and
    [getStatus] return after [cleanup now] what they would have returned
    without it, and [checkLimit] leaves the same record for its key. *)
Theorem X6_cleanup_transparent now now' rl k :
  now ≤ now' →
  (checkLimit k now' (cleanup now rl).2).1 = (checkLimit k now' rl).1 ∧
  userRequests (checkLimit k now' (cleanup now rl).2).2 !! k =
    userRequests (checkLimit k now' rl).2 !! k ∧
  (getStatus k now' (cleanup now rl).2).1 = (getStatus k now' rl).1.
Proof.
  intros Hle. destruct (cleanup_config now rl) as [Hm Hw].
  destruct (absent_or_expired now' (userRequests rl !! k)) eqn:E.
  - pose proof (cleanup_keeps_expiry now now' rl k Hle E) as E'.
    rewrite !checkLimit_create_or_reset, !getStatus_as_it_would_begin by done.
    cbn [fst snd userRequests with_userRequests].
    by rewrite Hm, Hw, !lookup_insert_eq.
  - pose proof (cleanup_agree now now' rl k Hle E) as Ha.
    destruct (checkLimit_local k now' _ _ Ha) as (Hr & _ & _ & Hl).
    split; [done|]. split; [done|]. by apply getStatus_local.
Qed.

Lemma X6_cleanup_transparent_witness :
  (checkLimit "old" 60005 (cleanup 60000 mixed).2).1 =
    (checkLimit "old" 60005 mixed).1 ∧
  userRequests (checkLimit "old" 60005 (cleanup 60000 mixed).2).2 !! "old" =
    userRequests (checkLimit "old" 60005 mixed).2 !! "old" ∧
  (getStatus "old" 60005 (cleanup 60000 mixed).2).1 =
    (getStatus "old" 60005 mixed).1.
Proof.
  apply (X6_cleanup_transparent 60000 60005 mixed "old"). lia.
Defined.

(** X7. After [cleanup] every record left has its window open at the clock
    [cleanup] read, and the store holds no more records than before.  A
    second [cleanup] at the same or a later clock value makes the first one
    redundant: [cleanup now'] after [cleanup now] leaves what [cleanup now']
    alone leaves, so [cleanup] is idempotent. *)
Theorem X7_cleanup_leaves_open_records now now' rl :
  (∀ k d, userRequests (cleanup now rl).2 !! k = Some d → now < resetTime d) ∧
  (size (userRequests (cleanup now rl).2) ≤ size (userRequests rl))%nat ∧
  (now ≤ now' → (cleanup now' (cleanup now rl).2).2 = (cleanup now' rl).2).
Proof.
  split; [|split].
  - intros k d. rewrite cleanup_state. cbn.
    by intros [_ H]%map_lookup_filter_Some.
  - rewrite cleanup_state. cbn.
    apply map_subseteq_size, map_filter_subseteq.
  - intros Hle. rewrite !cleanup_state. cbn.
    unfold with_userRequests. cbn. f_equal.
    apply map_eq. intros k. apply option_eq. intros d.
    rewrite !map_lookup_filter_Some. unfold still_open. cbn.
    split; [by intros [[? _] ?]|].
    intros [H1 H2]. repeat split; [done|lia|done].
Qed.

Lemma X7_cleanup_leaves_open_records_witness :
  (cleanup 60001 (cleanup 60000 mixed).2).2 = (cleanup 60001 mixed).2.
Proof.
  destruct (X7_cleanup_leaves_open_records 60000 60001 mixed) as (_ & _ & H).
  apply H. lia.
Defined.

(** ** The routes *)

Lemma data_route_unfold userId_of req now now' now_h rl :
  data_route userId_of req now now' now_h rl =
    let mw := rateLimiterMiddleware req now now' rl in
    match mw.1.2 with
    | Answered r => ((mw.1.1, r), mw.2)
    | Next =>
        let s := (getStatus (userId_of req) now_h mw.2).1 in
        ((mw.1.1,
          Ok_data (userId_of req) (st_remaining s) (st_resetTime s)), mw.2)
    end.
Proof.
  unfold data_route, bind, ret. cbn zeta.
  destruct (rateLimiterMiddleware req now now' rl) as [[h o] rl'].
  cbn [fst snd]. destruct o; [|done].
  pose proof (getStatus_state (userId_of req) now_h rl') as H.
  destruct (getStatus (userId_of req) now_h rl') as [s rl'']. cbn in *.
  by subst.
Qed.

Lemma checkLimit_rejected_unchanged userId now rl :
  allowed (checkLimit userId now rl).1 = false →
  (checkLimit userId now rl).2 = rl ∧ remaining (checkLimit userId now rl).1 = 0.
Proof.
  intros H. pose proof H as (d & Hd & Hnow & Hc & _)%checkLimit_rejected.
  by rewrite (checkLimit_reject _ _ _ d).
Qed.

(** X8. A data route ([GET] or [POST /api/data]) changes the limiter only
    through the middleware's [checkLimit]: the handler adds nothing.  The
    route answers 429 exactly when that [checkLimit] rejects; a rejected
    request leaves the limiter exactly as it was and carries
    [X-RateLimit-Remaining = 0]; an admitted request gets the handler's
    success body. *)
Theorem X8_data_route_effect userId_of req now now' now_h rl :
  let out := data_route userId_of req now now' now_h rl in
  let r := (checkLimit (userId_middleware req) now rl).1 in
  out.2 = (checkLimit (userId_middleware req) now rl).2 ∧
  ((∃ resetT retry, out.1.2 = Too_many_requests resetT retry) ↔
   allowed r = false) ∧
  (allowed r = false → out.2 = rl ∧ X_RateLimit_Remaining out.1.1 = 0) ∧
  (allowed r = true → ∃ rem rt, out.1.2 = Ok_data (userId_of req) rem rt).
Proof.
  cbn zeta. rewrite data_route_unfold, rateLimiterMiddleware_unfold.
  cbn [fst snd].
  destruct (allowed (checkLimit (userId_middleware req) now rl).1) eqn:Ha;
    cbn [fst snd X_RateLimit_Remaining].
  - split; [done|]. split; [|split; [done|eauto]].
    split; [by intros (? & ? & ?)|done].
  - split; [done|]. split; [|split; [|done]].
    + split; [done|eauto].
    + intros _. by apply checkLimit_rejected_unchanged.
Qed.

Lemma X8_data_route_effect_witness :
  (get_api_data (request_of "user-1") 59999 59999 59999 saturated).2
    = saturated ∧
  X_RateLimit_Remaining
    (get_api_data (request_of "user-1") 59999 59999 59999 saturated).1.1 = 0.
Proof.
  destruct (X8_data_route_effect userId_get (request_of "user-1")
              59999 59999 59999 saturated) as (_ & _ & H & _).
  apply H. reflexivity.
Defined.

Lemma userId_get_agrees req :
  truthy (headers_x_user_id req) = true ∨ truthy (query_userId req) = true ∨
    truthy (req_body_userId req) = false →
  userId_get req = userId_middleware req.
Proof.
  unfold userId_get, userId_middleware. intros [H|[H|H]].
  - by rewrite !js_or_truthy_l by (by rewrite ?js_or_truthy_l).
  - destruct (truthy (headers_x_user_id req)) eqn:Hh.
    + by rewrite !js_or_truthy_l by (by rewrite ?js_or_truthy_l).
    + rewrite (js_or_falsy_l (headers_x_user_id req)) by done.
      by rewrite js_or_truthy_l.
  - rewrite !js_or_lit_given, !given_js_or.
    destruct (given (headers_x_user_id req)); [done|].
    destruct (given (query_userId req)); [done|].
    destruct (req_body_userId req) as [s|]; [|done]. cbn in *.
    by destruct (String.eqb s EmptyString).
Qed.

Lemma userId_post_agrees req :
  truthy (headers_x_user_id req) = true ∨ truthy (query_userId req) = false →
  userId_post req = userId_middleware req.
Proof.
  unfold userId_post, userId_middleware. intros [H|H].
  - by rewrite !js_or_truthy_l by (by rewrite ?js_or_truthy_l).
  - destruct (truthy (headers_x_user_id req)) eqn:Hh.
    + by rewrite !js_or_truthy_l by (by rewrite ?js_or_truthy_l).
    + by rewrite !(js_or_falsy_l (headers_x_user_id req)), js_or_falsy_l.
Qed.

Lemma data_route_body_matches_headers userId_of req now now' now_h rl u rem rt :
  counts_in_range rl →
  userId_of req = userId_middleware req →
  let out := data_route userId_of req now now' now_h rl in
  out.1.2 = Ok_data u rem rt →
  now_h < X_RateLimit_Reset out.1.1 →
  u = userId_middleware req ∧
  rem = X_RateLimit_Remaining out.1.1 ∧
  rt = X_RateLimit_Reset out.1.1.
Proof.
  intros Hinv Hid. cbn zeta.
  rewrite data_route_unfold, rateLimiterMiddleware_unfold. cbn [fst snd].
  destruct (allowed (checkLimit (userId_middleware req) now rl).1);
    cbn [fst snd X_RateLimit_Reset X_RateLimit_Remaining]; [|done].
  intros [= <- <- <-] Hh. rewrite Hid.
  by rewrite getStatus_after_checkLimit.
Qed.

(** X9. On a store whose counts are in range, the success body of a data
    route names the user the middleware charged and repeats the headers
    ([rateLimitInfo.remaining = X-RateLimit-Remaining], same reset instant),
    provided the handler's clock is still before that reset instant and the
    handler resolves the same identity as the middleware: for [GET], when a
    header or a query parameter is given or no body field is; for [POST],
    when a header is given or no query parameter is. *)
Theorem X9_success_body_matches_headers req now now' now_h rl u rem rt :
  counts_in_range rl →
  (truthy (headers_x_user_id req) = true ∨ truthy (query_userId req) = true ∨
     truthy (req_body_userId req) = false →
   (get_api_data req now now' now_h rl).1.2 = Ok_data u rem rt →
   now_h < X_RateLimit_Reset (get_api_data req now now' now_h rl).1.1 →
   u = userId_middleware req ∧
   rem = X_RateLimit_Remaining (get_api_data req now now' now_h rl).1.1 ∧
   rt = X_RateLimit_Reset (get_api_data req now now' now_h rl).1.1) ∧
  (truthy (headers_x_user_id req) = true ∨ truthy (query_userId req) = false →
   (post_api_data req now now' now_h rl).1.2 = Ok_data u rem rt →
   now_h < X_RateLimit_Reset (post_api_data req now now' now_h rl).1.1 →
   u = userId_middleware req ∧
   rem = X_RateLimit_Remaining (post_api_data req now now' now_h rl).1.1 ∧
   rt = X_RateLimit_Reset (post_api_data req now now' now_h rl).1.1).
Proof.
  intros Hinv. split.
  - intros Hid%userId_get_agrees.
    by apply (data_route_body_matches_headers userId_get).
  - intros Hid%userId_post_agrees.
    by apply (data_route_body_matches_headers userId_post).
Qed.

Lemma X9_success_body_matches_headers_witness :
  "user-a" = userId_middleware query_request ∧
  3 = X_RateLimit_Remaining (get_api_data query_request 5 5 6 two_users).1.1 ∧
  60000 = X_RateLimit_Reset (get_api_data query_request 5 5 6 two_users).1.1.
Proof.
  destruct (X9_success_body_matches_headers query_request 5 5 6 two_users
              "user-a" 3 60000) as [H _].
  - destruct (reachable_counts 5 60000 two_users) as (_ & _ & H).
    + lia.
    + apply (reach_call 5 60000 rateLimiter (Call_checkLimit "user-a" 0)).
      apply reach_new.
    + exact H.
  - apply H.
    + right. left. reflexivity.
    + reflexivity.
    + vm_compute. reflexivity.
Defined.

Lemma userId_reset_source req u :
  userId_reset req = Some u →
  headers_x_user_id req = Some u ∨ req_body_userId req = Some u ∨
    query_userId req = Some u.
Proof.
  unfold userId_reset.
  destruct (truthy (headers_x_user_id req)) eqn:Hh.
  { rewrite !js_or_truthy_l by (by rewrite ?js_or_truthy_l). by left. }
  rewrite (js_or_falsy_l (headers_x_user_id req)) by done.
  destruct (truthy (req_body_userId req)) eqn:Hb.
  - rewrite js_or_truthy_l by done. by right; left.
  - rewrite js_or_falsy_l by done. by right; right.
Qed.

(** X10. When the reset route resolves an identity, it answers with that
    identity, which is one of the values the request carried, and removes
    that key's record only.  The next rate-limited request that the
    middleware resolves to the same identity is admitted with
    [maxRequests - 1] remaining in a window opened at its own clock. *)
Theorem X10_reset_route_then_request req rl :
  truthy (userId_reset req) = true →
  ∃ u,
    post_api_reset_rate_limit req rl = (Ok_reset u, (reset u rl).2) ∧
    (headers_x_user_id req = Some u ∨ req_body_userId req = Some u ∨
       query_userId req = Some u) ∧
    (∀ k, k ≠ u →
       userRequests (post_api_reset_rate_limit req rl).2 !! k =
         userRequests rl !! k) ∧
    (∀ req' now now',
       userId_middleware req' = u →
       (rateLimiterMiddleware req' now now'
          (post_api_reset_rate_limit req rl).2).1 =
         ({| X_RateLimit_Limit := maxRequests rl;
             X_RateLimit_Remaining := maxRequests rl - 1;
             X_RateLimit_Reset := now + windowMs rl |}, Next)).
Proof.
  intros Ht. unfold post_api_reset_rate_limit.
  destruct (userId_reset req) as [u|] eqn:Hu; [|done].
  rewrite Ht. cbn [negb]. exists u.
  assert ((let* _ := reset u in ret (Ok_reset u)) rl
          = (Ok_reset u, (reset u rl).2)) as -> by done.
  split; [done|]. split; [by apply userId_reset_source|].
  cbn [snd]. rewrite reset_state. cbn [userRequests with_userRequests].
  split; [intros k Hk; by apply lookup_delete_ne|].
  intros req' now now' Hid. rewrite rateLimiterMiddleware_unfold, Hid.
  rewrite checkLimit_create_or_reset; [done|].
  cbn. by rewrite lookup_delete_eq.
Qed.

Lemma X10_reset_route_then_request_witness :
  ∃ u,
    post_api_reset_rate_limit (request_of "user-1") saturated =
      (Ok_reset u, (reset u saturated).2) ∧
    (headers_x_user_id (request_of "user-1") = Some u ∨
       req_body_userId (request_of "user-1") = Some u ∨
       query_userId (request_of "user-1") = Some u) ∧
    (∀ k, k ≠ u →
       userRequests
         (post_api_reset_rate_limit (request_of "user-1") saturated).2 !! k =
         userRequests saturated !! k) ∧
    (∀ req' now now',
       userId_middleware req' = u →
       (rateLimiterMiddleware req' now now'
          (post_api_reset_rate_limit (request_of "user-1") saturated).2).1 =
         ({| X_RateLimit_Limit := 5;
             X_RateLimit_Remaining := 5 - 1;
             X_RateLimit_Reset := now + 60000 |}, Next)).
Proof.
  apply (X10_reset_route_then_request (request_of "user-1") saturated).
  reflexivity.
Defined.

(** ** Window ends stay within one window length of the clock *)

Lemma ceil_seconds_mono x y : x ≤ y → ceil_seconds x ≤ ceil_seconds y.
Proof.
  intros H. pose proof (ceil_seconds_spec x). pose proof (ceil_seconds_spec y).
  lia.
Qed.

Lemma checkLimit_ends_within t userId now rl :
  ends_within t rl → t ≤ now →
  ends_within now (checkLimit userId now rl).2 ∧
  cr_resetTime (checkLimit userId now rl).1 ≤ now + windowMs rl.
Proof.
  intros He Ht.
  assert (∀ d, resetTime d ≤ now + windowMs rl →
               ends_within now
                 (with_userRequests rl (<[userId := d]> (userRequests rl))))
    as Hins.
  { intros d Hd k d'. cbn. destruct (decide (userId = k)) as [->|Hk].
    - rewrite lookup_insert_eq. by intros [= <-].
    - rewrite lookup_insert_ne by done. intros H%He. lia. }
  destruct (absent_or_expired now (userRequests rl !! userId)) eqn:E.
  { rewrite checkLimit_create_or_reset by done. cbn [fst snd cr_resetTime].
    split; [|done]. by apply Hins. }
  destruct (userRequests rl !! userId) as [d|] eqn:Hd; [|done].
  simpl in E. apply geb_false_lt in E.
  pose proof (He _ _ Hd) as Hed.
  destruct (Z.lt_ge_cases (count d) (maxRequests rl)) as [Hc|Hc].
  - rewrite (checkLimit_admit _ _ _ d) by done. cbn [fst snd cr_resetTime].
    split; [|lia]. apply Hins. cbn. lia.
  - rewrite (checkLimit_reject _ _ _ d) by done. cbn [fst snd cr_resetTime].
    split; [|lia]. intros k d' H%He. lia.
Qed.

Lemma getStatus_ends_within t userId now rl :
  ends_within t rl → t ≤ now →
  st_resetTime (getStatus userId now rl).1 ≤ now + windowMs rl.
Proof.
  intros He Ht.
  destruct (absent_or_expired now (userRequests rl !! userId)) eqn:E.
  { by rewrite getStatus_as_it_would_begin. }
  destruct (userRequests rl !! userId) as [d|] eqn:Hd; [|done].
  simpl in E. apply geb_false_lt in E.
  rewrite (getStatus_active _ _ _ d) by done. cbn.
  pose proof (He _ _ Hd). lia.
Qed.

(** X11. If no stored window ends more than [windowMs] after some earlier
    clock value (true of an empty store), then after a [checkLimit] at a clock
    that has not gone back the same holds for that clock, and the window end
    it returns is at most [now + windowMs]; so is the one [getStatus]
    returns.  Hence, with the answer built at [now' >= now], neither the
    [retryAfter] of a 429 nor the [resetInSeconds] of the status route
    exceeds [ceil(windowMs / 1000)]. *)
Theorem X11_seconds_bounded_by_window t req now now' rl :
  ends_within t rl → t ≤ now → now ≤ now' →
  ends_within now (rateLimiterMiddleware req now now' rl).2 ∧
  X_RateLimit_Reset (rateLimiterMiddleware req now now' rl).1.1
    ≤ now + windowMs rl ∧
  (∀ r secs,
     (rateLimiterMiddleware req now now' rl).1.2 = Answered r →
     seconds_reported r = Some secs →
     secs ≤ ceil_seconds (windowMs rl)) ∧
  (∀ secs,
     seconds_reported (get_api_rate_limit_status req now now' rl).1
       = Some secs →
     secs ≤ ceil_seconds (windowMs rl)).
Proof.
  intros He Ht Hle.
  destruct (checkLimit_ends_within t (userId_middleware req) now rl He Ht)
    as [He' Hr].
  rewrite rateLimiterMiddleware_unfold. cbn [fst snd X_RateLimit_Reset].
  split; [done|]. split; [done|]. split.
  - intros r secs. destruct (allowed _); [done|].
    intros [= <-] [= <-]. apply ceil_seconds_mono. lia.
  - intros secs. rewrite get_api_rate_limit_status_unfold.
    cbn [fst seconds_reported]. intros [= <-]. apply ceil_seconds_mono.
    pose proof (getStatus_ends_within t (userId_get req) now rl He Ht). lia.
Qed.

Lemma ends_within_new t max w : ends_within t (new_RateLimiter (Some max) (Some w)).
Proof. intros k d. cbn. by rewrite lookup_empty. Qed.

Lemma X11_seconds_bounded_by_window_witness :
  ends_within 10 (rateLimiterMiddleware (request_of "user-1") 10 11
                    rateLimiter).2 ∧
  X_RateLimit_Reset
    (rateLimiterMiddleware (request_of "user-1") 10 11 rateLimiter).1.1
    ≤ 10 + 60000.
Proof.
  destruct (X11_seconds_bounded_by_window 0 (request_of "user-1") 10 11
              rateLimiter) as (H1 & H2 & _).
  - apply ends_within_new.
  - lia.
  - lia.
  - split; [exact H1|exact H2].
Defined.

(** ** The window is fixed *)

(** X12. While a key's window is open, [checkLimit] never moves its end:
    admitted or rejected, the record afterwards has the same [resetTime],
    and its count has grown by one if it was below [maxRequests] and not at
    all otherwise.  Only a call at or after the window end replaces the
    record, and with [windowMs > 0] the new window ends later than the old
    one. *)
Theorem X12_window_is_fixed userId now rl d :
  userRequests rl !! userId = Some d →
  (now < resetTime d →
   userRequests (checkLimit userId now rl).2 !! userId =
     Some {| count := if count d <? maxRequests rl then count d + 1
                      else count d;
             resetTime := resetTime d |}) ∧
  (resetTime d ≤ now → 0 < windowMs rl →
   ∃ d', userRequests (checkLimit userId now rl).2 !! userId = Some d' ∧
         count d' = 1 ∧ resetTime d < resetTime d').
Proof.
  intros Hd. split.
  - intros Hnow.
    destruct (Z.ltb_spec (count d) (maxRequests rl)) as [Hc|Hc].
    + rewrite (checkLimit_admit _ _ _ d) by done. cbn.
      by rewrite lookup_insert_eq.
    + rewrite (checkLimit_reject _ _ _ d) by done. cbn.
      rewrite Hd. by destruct d.
  - intros Hnow Hw. rewrite checkLimit_create_or_reset.
    + cbn. rewrite lookup_insert_eq. eexists. split; [done|]. cbn. lia.
    + rewrite Hd. cbn. by apply geb_true_le.
Qed.

Lemma X12_window_is_fixed_witness :
  userRequests (checkLimit "live" 60000 mixed).2 !! "live" =
    Some {| count := 4; resetTime := 60001 |}.
Proof.
  destruct (X12_window_is_fixed "live" 60000 mixed
              {| count := 3; resetTime := 60001 |}) as [H _].
  - reflexivity.
  - apply H. cbn. lia.
Defined.

(** ** Where a handler and the middleware disagree on the user *)

Lemma getStatus_other_key k k' now now_h rl :
  k ≠ k' →
  (getStatus k' now_h (checkLimit k now rl).2).1 = (getStatus k' now_h rl).1.
Proof.
  intros Hk. apply getStatus_local.
  destruct (checkLimit_config k now rl) as [Hm Hw].
  split; [done|]. split; [done|]. by apply checkLimit_other.
Qed.

(** X13. A [POST /api/data] without identity header whose query parameter
    and body field name two different users is charged to the user of the
    query parameter, while its success body names the user of the body field
    and reports that user's quota as it was before the request.  Likewise a
    [GET /api/data] carrying only a body field is charged to that user and
    answers for ["anonymous"]. *)
Theorem X13_handler_reports_other_user req now now' now_h rl q b :
  truthy (headers_x_user_id req) = false →
  (query_userId req = Some q → truthy (Some q) = true →
   req_body_userId req = Some b → truthy (Some b) = true → q ≠ b →
   (post_api_data req now now' now_h rl).2 = (checkLimit q now rl).2 ∧
   (allowed (checkLimit q now rl).1 = true →
    (post_api_data req now now' now_h rl).1.2 =
      Ok_data b (st_remaining (getStatus b now_h rl).1)
                (st_resetTime (getStatus b now_h rl).1))) ∧
  (truthy (query_userId req) = false →
   req_body_userId req = Some b → truthy (Some b) = true → b ≠ "anonymous" →
   (get_api_data req now now' now_h rl).2 = (checkLimit b now rl).2 ∧
   (allowed (checkLimit b now rl).1 = true →
    (get_api_data req now now' now_h rl).1.2 =
      Ok_data "anonymous"
        (st_remaining (getStatus "anonymous" now_h rl).1)
        (st_resetTime (getStatus "anonymous" now_h rl).1))).
Proof.
  intros Hh. split.
  - intros Hq Hqt Hb Hbt Hne.
    assert (userId_middleware req = q) as Hmw.
    { unfold userId_middleware.
      rewrite (js_or_falsy_l (headers_x_user_id req)) by done.
      rewrite Hq, js_or_truthy_l by done.
      apply (inj Some). by rewrite js_or_lit_truthy. }
    assert (userId_post req = b) as Hpost.
    { unfold userId_post.
      rewrite (js_or_falsy_l (headers_x_user_id req)), Hb by done.
      apply (inj Some). by rewrite js_or_lit_truthy. }
    unfold post_api_data.
    rewrite data_route_unfold, rateLimiterMiddleware_unfold, Hmw, Hpost.
    cbn [fst snd].
    destruct (allowed (checkLimit q now rl).1); cbn [fst snd]; [|done].
    split; [done|]. intros _. by rewrite getStatus_other_key.
  - intros Hq Hb Hbt Hne.
    assert (userId_middleware req = b) as Hmw.
    { unfold userId_middleware.
      rewrite (js_or_falsy_l (headers_x_user_id req)) by done.
      rewrite js_or_falsy_l, Hb by done.
      apply (inj Some). by rewrite js_or_lit_truthy. }
    assert (userId_get req = "anonymous") as Hget.
    { unfold userId_get.
      rewrite (js_or_falsy_l (headers_x_user_id req)) by done.
      by rewrite js_or_lit_falsy. }
    unfold get_api_data.
    rewrite data_route_unfold, rateLimiterMiddleware_unfold, Hmw, Hget.
    cbn [fst snd].
    destruct (allowed (checkLimit b now rl).1); cbn [fst snd]; [|done].
    split; [done|]. intros _. by rewrite getStatus_other_key.
Qed.

Lemma X13_handler_reports_other_user_witness :
  (post_api_data split_request 5 5 6 two_users).2 =
    (checkLimit "user-a" 5 two_users).2 ∧
  (post_api_data split_request 5 5 6 two_users).1.2 =
    Ok_data "user-b" (st_remaining (getStatus "user-b" 6 two_users).1)
                     (st_resetTime (getStatus "user-b" 6 two_users).1).
Proof.
  destruct (X13_handler_reports_other_user split_request 5 5 6 two_users
              "user-a" "user-b") as [H _].
  - reflexivity.
  - destruct H as [H1 H2]; try reflexivity.
    + discriminate.
    + split; [exact H1|]. apply H2. reflexivity.
Defined.
